(** * A RAG script over Pinecone and Gemini: shallow embedding of [main.py]

    The script sequences calls to external services (a PDF loader, a text
    splitter, the Pinecone client, a Gemini chat model and a LangChain
    chain).  The embedding keeps the control flow of every function of
    [main.py] and replaces each external call by a lookup in a [World], the
    record of the answers those services give during one run.  A computation
    returns the events it emitted (prints and external calls, in order), the
    module globals after it, and how it ended. *)

From Stdlib Require Import List String Ascii Arith ZArith Lia Bool.
From Stdlib Require Import DecimalString DecimalNat Finite.
Import ListNotations.

Local Open Scope string_scope.
Local Open Scope list_scope.

(** ** Data *)

(** A loaded page, as LangChain's [Document]: the text and where it is from. *)
Record Document := mkDocument {
  page_content : string;
  source : string;
  page : nat
}.

(** The dict built at lines 130-134 of [main.py]. *)
Record IndexRecord := mkIndexRecord {
  _id : string;
  chunk_text : string;
  category : string
}.

(** One entry of [results['result']['hits']]; the script only prints it and
    hands it to the chain, so its printed form is all that is kept. *)
Record Hit := mkHit { hit_repr : string }.

(** Handles returned by the external constructors. *)
Record Index := mkIndex { index_handle_name : string }.
Record ChatModel := mkChatModel {
  llm_model : string;
  llm_api_key : string;
  llm_temperature : string
}.
Record Chain := mkChain { chain_llm : ChatModel }.

(** What [except Exception as e] binds; [exn_str] is [str(e)]. *)
Record Exn := Exception { exn_str : string }.

Definition KeyError (key : string) : Exn := Exception ("'" ++ key ++ "'").
Definition NameError (name : string) : Exn :=
  Exception ("name '" ++ name ++ "' is not defined").

(** ** Events: every print and every call that leaves the script *)

Inductive Event :=
| EvPrint (line : string)
| EvLoad (directory : string)
| EvTextSplitter (chunk_size chunk_overlap : Z)
| EvSplitDocuments (docs : list Document)
| EvPinecone (api_key : string)
| EvListIndexes
| EvDeleteIndex (name : string)
| EvSleep (seconds : nat)
| EvCreateIndexForModel (name cloud region model : string)
                        (field_map : list (string * string))
| EvOpenIndex (name : string)
| EvUpsertRecords (index : Index) (namespace : string)
                  (records : list IndexRecord)
| EvDescribeIndexStats (index : Index)
| EvQuery (index : Index) (namespace : string) (top_k : Z) (text : string)
| EvChatModel (model api_key temperature : string)
| EvCreateChain (llm : ChatModel)
| EvChainInvoke (chain : Chain) (input_documents : list Hit)
                (question : string).

(** ** The world: what the environment and the services answer

    Each field is the answer to one kind of request of the script, either a
    raised exception or a value.  Apart from printing and sleeping, the
    script repeats no request within a run except [upsert_records], whose
    batches differ, so a function of the request describes any run. *)

Record World := mkWorld {
  environ : string -> option string;
  directory_load : string -> Exn + list Document;
  text_splitter_new : Z -> Z -> Exn + unit;
  split_documents : Z -> Z -> list Document -> Exn + list Document;
  pinecone_new : string -> Exn + unit;
  list_index_names : Exn + list string;
  delete_index : string -> Exn + unit;
  create_index_for_model :
    string -> string -> string -> string -> list (string * string) ->
    Exn + unit;
  open_index : string -> Exn + Index;
  upsert_records : Index -> string -> list IndexRecord -> Exn + unit;
  describe_index_stats : Index -> Exn + string;
  index_query : Index -> string -> Z -> string -> Exn + list Hit;
  chat_model_new : string -> string -> string -> Exn + ChatModel;
  create_stuff_documents_chain : ChatModel -> Exn + Chain;
  chain_invoke : Chain -> list Hit -> string -> Exn + string
}.

(** ** The monad of the script *)

(** The module globals [index] and [chain], unbound until [main] sets them. *)
Record Globals := mkGlobals {
  g_index : option Index;
  g_chain : option Chain
}.

Definition no_globals : Globals := mkGlobals None None.

(** How a computation ends: a value, an [Exception] travelling up, or
    [SystemExit], which [except Exception] does not catch. *)
Inductive Outcome (A : Type) :=
| Ret (a : A)
| Raise (e : Exn)
| SysExit (code : Z).
Arguments Ret {A} a.
Arguments Raise {A} e.
Arguments SysExit {A} code.

Definition M (A : Type) : Type := Globals -> list Event * Globals * Outcome A.

Definition events {A} (r : list Event * Globals * Outcome A) : list Event :=
  fst (fst r).
Definition globals {A} (r : list Event * Globals * Outcome A) : Globals :=
  snd (fst r).
Definition outcome {A} (r : list Event * Globals * Outcome A) : Outcome A :=
  snd r.

Definition ret {A} (a : A) : M A := fun g => ([], g, Ret a).

Definition bind {A B} (m : M A) (k : A -> M B) : M B := fun g =>
  match m g with
  | (ev, g1, Ret a) =>
      match k a g1 with (ev2, g2, r) => (ev ++ ev2, g2, r) end
  | (ev, g1, Raise e) => (ev, g1, Raise e)
  | (ev, g1, SysExit c) => (ev, g1, SysExit c)
  end.

Notation "x <- m ;; k" := (bind m (fun x => k))
  (at level 61, m at next level, right associativity).
Notation "m ;; k" := (bind m (fun _ => k))
  (at level 61, right associativity).

Definition emit (e : Event) : M unit := fun g => ([e], g, Ret tt).
Definition raise {A} (e : Exn) : M A := fun g => ([], g, Raise e).
Definition sys_exit {A} (code : Z) : M A := fun g => ([], g, SysExit code).

(** An external call: the request is recorded, then the world answers. *)
Definition call {A} (e : Event) (answer : Exn + A) : M A := fun g =>
  ([e], g, match answer with inl x => Raise x | inr a => Ret a end).

(** [try: body except Exception as e: handler e]. *)
Definition try_except {A} (body : M A) (handler : Exn -> M A) : M A :=
  fun g =>
    match body g with
    | (ev, g1, Raise e) =>
        match handler e g1 with (ev2, g2, r) => (ev ++ ev2, g2, r) end
    | r => r
    end.

(** [for x in xs: body x]. *)
Fixpoint for_each {A} (xs : list A) (body : A -> M unit) : M unit :=
  match xs with
  | [] => ret tt
  | x :: rest => body x ;; for_each rest body
  end.

Definition print (line : string) : M unit := emit (EvPrint line).
Definition sleep (seconds : nat) : M unit := emit (EvSleep seconds).

Definition set_index (i : Index) : M unit := fun g =>
  ([], mkGlobals (Some i) (g_chain g), Ret tt).
Definition set_chain (c : Chain) : M unit := fun g =>
  ([], mkGlobals (g_index g) (Some c), Ret tt).
Definition get_index : M Index := fun g =>
  ([], g, match g_index g with
          | Some i => Ret i
          | None => Raise (NameError "index")
          end).
Definition get_chain : M Chain := fun g =>
  ([], g, match g_chain g with
          | Some c => Ret c
          | None => Raise (NameError "chain")
          end).

(** ** Python built-ins the script uses *)

(** [str(n)] for a non-negative integer. *)
Definition str_of_nat (n : nat) : string :=
  NilEmpty.string_of_uint (Nat.to_uint n).

(** [sep.join(parts)]. *)
Definition join (sep : string) (parts : list string) : string :=
  String.concat sep parts.

(** [repr] of a list of hits, as the f-string of line 90 prints it. *)
Definition repr_hits (hits : list Hit) : string :=
  "[" ++ join ", " (map hit_repr hits) ++ "]".

(** Truth value of a list ([if not docs]). *)
Definition is_empty {A} (l : list A) : bool :=
  match l with [] => true | _ :: _ => false end.

(** [name in names]. *)
Definition py_in (name : string) (names : list string) : bool :=
  existsb (String.eqb name) names.

(** [enumerate(l)], counting from [start]. *)
Fixpoint enumerate_from {A} (start : nat) (l : list A) : list (nat * A) :=
  match l with
  | [] => []
  | x :: rest => (start, x) :: enumerate_from (S start) rest
  end.
Definition enumerate {A} (l : list A) : list (nat * A) := enumerate_from 0 l.

(** [range(start, stop, step)] for a positive step: [start], [start+step],
    ... while below [stop].  The fuel bounds the number of elements. *)
Fixpoint range_fuel (fuel start stop step : nat) : list nat :=
  match fuel with
  | O => []
  | S fuel' =>
      if Nat.ltb start stop
      then start :: range_fuel fuel' (start + step) stop step
      else []
  end.
Definition py_range (start stop step : nat) : list nat :=
  range_fuel (stop - start) start stop step.

(** [l[i:j]] for [0 <= i <= j]; an end past the list is clipped. *)
Definition py_slice {A} (l : list A) (i j : nat) : list A :=
  firstn (j - i) (skipn i l).

(** [os.environ[key]]. *)
Definition environ_getitem (w : World) (key : string) : M string :=
  match environ w key with
  | Some v => ret v
  | None => raise (KeyError key)
  end.

(** ** The functions of [main.py] *)

Section Script.

Variable w : World.

(** [read_doc], lines 15-33. *)
Definition read_doc (directory : string) : M (list Document) :=
  try_except
    (documents <- call (EvLoad directory) (directory_load w directory) ;;
     (if is_empty documents
      then print ("No PDF files found in directory: " ++ directory)
      else ret tt) ;;
     ret documents)
    (fun e =>
       print ("Error loading documents from " ++ directory ++ ": "
              ++ exn_str e) ;;
       ret []).

(** [chunk_data], lines 36-53.  An argument left out at the call is [None]
    and takes the default of the signature. *)
Definition chunk_data (docs : list Document)
    (chunk_size chunk_overlap : option Z) : M (list Document) :=
  let chunk_size := match chunk_size with Some n => n | None => 800%Z end in
  let chunk_overlap :=
    match chunk_overlap with Some n => n | None => 50%Z end in
  if is_empty docs
  then print "No documents to chunk." ;; ret []
  else
    call (EvTextSplitter chunk_size chunk_overlap)
         (text_splitter_new w chunk_size chunk_overlap) ;;
    doc <- call (EvSplitDocuments docs)
                (split_documents w chunk_size chunk_overlap docs) ;;
    ret doc.

(** [retrieve_query], lines 56-76; [index] is the module global. *)
Definition retrieve_query (query : string) (k : option Z) : M (list Hit) :=
  let k := match k with Some n => n | None => 2%Z end in
  index <- get_index ;;
  results <- call (EvQuery index "default" k query)
                  (index_query w index "default" k query) ;;
  ret results.

(** [retrieve_answers], lines 79-92; [chain] is the module global. *)
Definition retrieve_answers (query : string) : M string :=
  doc_search <- retrieve_query query None ;;
  print ("Retrieved documents: " ++ repr_hits doc_search) ;;
  chain <- get_chain ;;
  response <- call (EvChainInvoke chain doc_search query)
                   (chain_invoke w chain doc_search query) ;;
  ret response.

Definition index_name : string := "lanchain".
Definition batch_size : nat := 50.

(** The list comprehension of lines 129-135. *)
Definition build_records (documents : list Document) : list IndexRecord :=
  map (fun p : nat * Document =>
         let (i, doc) := p in
         mkIndexRecord ("doc_" ++ str_of_nat i) (page_content doc) "budget")
      (enumerate documents).

(** The body of the loop of lines 139-142 at offset [i]. *)
Definition upsert_batch (index : Index) (records : list IndexRecord)
    (i : nat) : M unit :=
  let batch := py_slice records i (i + batch_size) in
  print ("Upserting batch " ++ str_of_nat (i / batch_size + 1) ++ " with "
         ++ str_of_nat (List.length batch) ++ " records") ;;
  call (EvUpsertRecords index "default" batch)
       (upsert_records w index "default" batch).

(** [setup_pinecone_index], lines 94-154. *)
Definition setup_pinecone_index (documents : list Document) : M Index :=
  try_except
    (api_key <- environ_getitem w "PINECONE_API_KEY" ;;
     call (EvPinecone api_key) (pinecone_new w api_key) ;;
     names <- call EvListIndexes (list_index_names w) ;;
     (if py_in index_name names
      then
        print ("Deleting existing index '" ++ index_name ++ "'...") ;;
        call (EvDeleteIndex index_name) (delete_index w index_name) ;;
        sleep 10
      else ret tt) ;;
     print ("Creating index '" ++ index_name
            ++ "' with integrated embedding...") ;;
     call (EvCreateIndexForModel index_name "aws" "us-east-1"
             "llama-text-embed-v2" [("text", "chunk_text")])
          (create_index_for_model w index_name "aws" "us-east-1"
             "llama-text-embed-v2" [("text", "chunk_text")]) ;;
     sleep 10 ;;
     index <- call (EvOpenIndex index_name) (open_index w index_name) ;;
     let records := build_records documents in
     for_each (py_range 0 (List.length records) batch_size)
              (upsert_batch index records) ;;
     print ("Upserted " ++ str_of_nat (List.length documents)
            ++ " documents into index '" ++ index_name ++ "'.") ;;
     stats <- call (EvDescribeIndexStats index)
                   (describe_index_stats w index) ;;
     print ("Index stats: " ++ stats) ;;
     ret index)
    (fun e =>
       print ("Failed to initialize Pinecone or upsert data: "
              ++ exn_str e) ;;
       print "Please verify the API key and ensure the 'lanchain' index exists in the us-east-1 region." ;;
       raise e).

Definition DOCUMENTS_DIRECTORY : string := "F:\DBLear\documents".
Definition QUERY : string :=
  "How much the agriculture target will be increased by how many crore?".

(** [main], lines 156-196. *)
Definition main : M unit :=
  print "Loading documents..." ;;
  doc <- read_doc DOCUMENTS_DIRECTORY ;;
  print ("Number of documents loaded: " ++ str_of_nat (List.length doc)) ;;
  if is_empty doc
  then print "No documents found. Please check the directory path."
  else
    print "Chunking documents..." ;;
    documents <- chunk_data doc None None ;;
    print ("Number of documents after chunking: "
           ++ str_of_nat (List.length documents)) ;;
    print "Setting up Pinecone index..." ;;
    index <- setup_pinecone_index documents ;;
    set_index index ;;
    print "Initializing LLM and QA chain..." ;;
    google_api_key <- environ_getitem w "GOOGLE_API_KEY" ;;
    llm <- call (EvChatModel "gemini-2.0-flash" google_api_key "0.5")
                (chat_model_new w "gemini-2.0-flash" google_api_key "0.5") ;;
    chain <- call (EvCreateChain llm) (create_stuff_documents_chain w llm) ;;
    set_chain chain ;;
    print ("Processing query: " ++ QUERY) ;;
    answer <- retrieve_answers QUERY ;;
    print ("Answer: " ++ answer).

Definition required_vars : list string :=
  ["GOOGLE_API_KEY"; "PINECONE_API_KEY"].

(** Truth value of [os.environ.get(var)]: [None] and the empty string are
    false. *)
Definition truthy (v : option string) : bool :=
  match v with
  | Some (String _ _) => true
  | Some EmptyString => false
  | None => false
  end.

Definition missing_vars : list string :=
  filter (fun var => negb (truthy (environ w var))) required_vars.

(** The [__main__] block, lines 198-208.  [environ] is [os.environ] as the
    block reads it, after [load_dotenv()] of line 12 has run. *)
Definition script : M unit :=
  (if negb (is_empty missing_vars)
   then
     print ("Error: Missing required environment variables: "
            ++ join ", " missing_vars) ;;
     print "Please create a .env file with your API keys." ;;
     sys_exit 1
   else ret tt) ;;
  main.

End Script.

(** ** Reading a trace *)

Definition is_print (e : Event) : bool :=
  match e with EvPrint _ => true | _ => false end.

(** The calls that leave the process, prints dropped. *)
Definition service_calls (evs : list Event) : list Event :=
  filter (fun e => negb (is_print e)) evs.

(** The record lists of the [upsert_records] calls, in issue order. *)
Definition upserted_batches (evs : list Event) : list (list IndexRecord) :=
  flat_map (fun e => match e with
                     | EvUpsertRecords _ _ batch => [batch]
                     | _ => []
                     end) evs.


(** Operations on the vector index or the language model. *)
Definition is_index_or_llm_call (e : Event) : bool :=
  match e with
  | EvPinecone _ | EvListIndexes | EvDeleteIndex _
  | EvCreateIndexForModel _ _ _ _ _ | EvOpenIndex _
  | EvUpsertRecords _ _ _ | EvDescribeIndexStats _ | EvQuery _ _ _ _
  | EvChatModel _ _ _ | EvCreateChain _ | EvChainInvoke _ _ _ => true
  | EvPrint _ | EvLoad _ | EvTextSplitter _ _ | EvSplitDocuments _
  | EvSleep _ => false
  end.

(** The namespace an event writes to or reads from, when it has one. *)
Definition namespace_of (e : Event) : option string :=
  match e with
  | EvUpsertRecords _ ns _ => Some ns
  | EvQuery _ ns _ _ => Some ns
  | _ => None
  end.


(** [emits_only P m]: whatever the globals, [m] emits only events in [P]. *)
Definition emits_only {A} (P : Event -> Prop) (m : M A) : Prop :=
  forall g, Forall P (events (m g)).

(** The batches the loop of lines 139-142 cuts out of [records]: one slice
    per offset of the range, in the order of the range. *)
Definition upsert_batches (records : list IndexRecord)
    : list (list IndexRecord) :=
  map (fun i => py_slice records i (i + batch_size))
      (py_range 0 (List.length records) batch_size).

(** The answer of a call, or a placeholder when the call raised. *)
Definition answer_or {A} (placeholder : A) (answer : Exn + A) : A :=
  match answer with inr a => a | inl _ => placeholder end.

(** The reset steps of lines 108-126 for an index list [names]. *)
Definition reset_steps (names : list string) : list Event :=
  (if py_in index_name names
   then [EvDeleteIndex index_name; EvSleep 10]
   else [])
  ++ [EvCreateIndexForModel index_name "aws" "us-east-1"
        "llama-text-embed-v2" [("text", "chunk_text")];
      EvSleep 10;
      EvOpenIndex index_name].

(** The calls of a complete build, in order.  A run stops at the first call
    that raises, so it never gets past a placeholder. *)
Definition build_calls (w : World) (documents : list Document)
    : list Event :=
  let api_key :=
    match environ w "PINECONE_API_KEY" with Some k => k | None => "" end in
  let names := answer_or [] (list_index_names w) in
  let index := answer_or (mkIndex index_name) (open_index w index_name) in
  [EvPinecone api_key; EvListIndexes]
  ++ reset_steps names
  ++ map (EvUpsertRecords index "default")
         (upsert_batches (build_records documents))
  ++ [EvDescribeIndexStats index].

(** Properties of single events the claims speak of. *)
Definition in_default_namespace (e : Event) : Prop :=
  forall ns, namespace_of e = Some ns -> ns = "default".



(** The services answer every call of a build over [documents], and the
    handle they give is [index]. *)
Definition build_answers (w : World) (documents : list Document)
    (index : Index) : Prop :=
  exists key names stats,
    environ w "PINECONE_API_KEY" = Some key
    /\ pinecone_new w key = inr tt
    /\ list_index_names w = inr names
    /\ (py_in index_name names = true ->
        delete_index w index_name = inr tt)
    /\ create_index_for_model w index_name "aws" "us-east-1"
         "llama-text-embed-v2" [("text", "chunk_text")] = inr tt
    /\ open_index w index_name = inr index
    /\ (forall batch,
          In batch (upsert_batches (build_records documents)) ->
          upsert_records w index "default" batch = inr tt)
    /\ describe_index_stats w index = inr stats.


(** The calls of a complete run of [main], in order: the load and, when it
    gives documents, the splitter, the build over the chunks, the model, the
    chain, the query and the call of the chain.  Placeholders stand for the
    answers of calls that raised, as in [build_calls]. *)
Definition main_calls (w : World) : list Event :=
  let docs := answer_or [] (directory_load w DOCUMENTS_DIRECTORY) in
  let chunks := answer_or [] (split_documents w 800 50 docs) in
  let index := answer_or (mkIndex index_name) (open_index w index_name) in
  let google_api_key :=
    match environ w "GOOGLE_API_KEY" with Some k => k | None => "" end in
  let llm :=
    answer_or (mkChatModel "gemini-2.0-flash" google_api_key "0.5")
      (chat_model_new w "gemini-2.0-flash" google_api_key "0.5") in
  let chain := answer_or (mkChain llm) (create_stuff_documents_chain w llm) in
  let hits := answer_or [] (index_query w index "default" 2 QUERY) in
  EvLoad DOCUMENTS_DIRECTORY
  :: (if is_empty docs
      then []
      else
        [EvTextSplitter 800 50; EvSplitDocuments docs]
        ++ build_calls w chunks
        ++ [EvChatModel "gemini-2.0-flash" google_api_key "0.5";
            EvCreateChain llm;
            EvQuery index "default" 2 QUERY;
            EvChainInvoke chain hits QUERY]).

(** A run of [main] got to the end of the build: the loader gave the
    documents [docs], the splitter the chunks [chunks], and every call of
    the build over them answered, with the handle [index]. *)
Definition built (w : World) (docs chunks : list Document) (index : Index)
    : Prop :=
  directory_load w DOCUMENTS_DIRECTORY = inr docs
  /\ docs <> []
  /\ text_splitter_new w 800 50 = inr tt
  /\ split_documents w 800 50 docs = inr chunks
  /\ build_answers w chunks index.

(** The calls of the answering stages: model, chain, query, generation. *)
Definition is_answering_call (e : Event) : bool :=
  match e with
  | EvChatModel _ _ _ | EvCreateChain _ | EvQuery _ _ _ _
  | EvChainInvoke _ _ _ => true
  | _ => false
  end.

(** The index handle an event addresses, when it addresses one. *)
Definition index_of (e : Event) : option Index :=
  match e with
  | EvUpsertRecords i _ _ => Some i
  | EvDescribeIndexStats i => Some i
  | EvQuery i _ _ _ => Some i
  | _ => None
  end.

(** Each value a call of [main] receives is what an earlier call of the
    same run returned: the splitter gets the loaded documents, every index
    operation the handle of [open_index], the chain constructor the model
    made with the key of the environment, and the chain the hits of the
    query together with the question that was sent to the index. *)
Definition grounded (w : World) (e : Event) : Prop :=
  match e with
  | EvSplitDocuments docs => directory_load w DOCUMENTS_DIRECTORY = inr docs
  | EvUpsertRecords i _ _ => open_index w index_name = inr i
  | EvDescribeIndexStats i => open_index w index_name = inr i
  | EvQuery i _ _ text => open_index w index_name = inr i /\ text = QUERY
  | EvCreateChain llm =>
      exists key,
        environ w "GOOGLE_API_KEY" = Some key
        /\ chat_model_new w "gemini-2.0-flash" key "0.5" = inr llm
  | EvChainInvoke chain hits question =>
      question = QUERY
      /\ exists key llm i,
           environ w "GOOGLE_API_KEY" = Some key
           /\ chat_model_new w "gemini-2.0-flash" key "0.5" = inr llm
           /\ create_stuff_documents_chain w llm = inr chain
           /\ open_index w index_name = inr i
           /\ index_query w i "default" 2 QUERY = inr hits
  | _ => True
  end.


(** The announcement of line 141 for the batch with the given number and
    size. *)
Definition batch_line (number size : nat) : string :=
  "Upserting batch " ++ str_of_nat number ++ " with " ++ str_of_nat size
  ++ " records".

(** The announcements and the upserts of a trace, in order: the lines
    that start with [Upserting batch] and the record lists written. *)
Definition upsert_log (evs : list Event)
    : list (string + list IndexRecord) :=
  flat_map (fun e => match e with
                     | EvPrint line =>
                         if String.prefix "Upserting batch " line
                         then [inl line]
                         else []
                     | EvUpsertRecords _ _ batch => [inr batch]
                     | _ => []
                     end) evs.

(** What the loop iteration at offset [i] adds to the log: its
    announcement, then its batch. *)
Definition announced_pair (records : list IndexRecord) (i : nat)
    : list (string + list IndexRecord) :=
  [inl (batch_line (i / batch_size + 1)
          (List.length (py_slice records i (i + batch_size))));
   inr (py_slice records i (i + batch_size))].

(** ** Stand-ins for the services, to run the script on *)

(** Pieces of at most [n] characters, in order. *)
Fixpoint cut_text (fuel n : nat) (s : string) : list string :=
  match fuel with
  | O => []
  | S fuel' =>
      if Nat.leb (String.length s) n
      then [s]
      else substring 0 n s
           :: cut_text fuel' n (substring n (String.length s - n) s)
  end.

(** A splitter that drops empty pages, keeps a page that fits in
    [chunk_size] whole and cuts a longer one every [chunk_size] characters. *)
Definition cut_document (chunk_size : Z) (d : Document) : list Document :=
  match page_content d with
  | EmptyString => []
  | text =>
      map (fun piece => mkDocument piece (source d) (page d))
          (cut_text (String.length text) (Z.to_nat chunk_size) text)
  end.

Definition sample_pages : list Document :=
  [mkDocument "Agriculture credit target raised." "budget.pdf" 0;
   mkDocument "Allocation for rural roads." "budget.pdf" 1].

(** A world in which every service answers.  The splitter constructor
    refuses an overlap larger than the chunk size, and nothing else. *)
Definition sample_world (pages : list Document) (names : list string)
    : World :=
  {| environ := fun var =>
       if String.eqb var "GOOGLE_API_KEY" then Some "g-key"
       else if String.eqb var "PINECONE_API_KEY" then Some "p-key"
       else None;
     directory_load := fun _ => inr pages;
     text_splitter_new := fun size overlap =>
       if Z.ltb size overlap
       then inl (Exception "Got a larger chunk overlap than chunk size")
       else inr tt;
     split_documents := fun size _ docs =>
       inr (flat_map (cut_document size) docs);
     pinecone_new := fun _ => inr tt;
     list_index_names := inr names;
     delete_index := fun _ => inr tt;
     create_index_for_model := fun _ _ _ _ _ => inr tt;
     open_index := fun name => inr (mkIndex name);
     upsert_records := fun _ _ _ => inr tt;
     describe_index_stats := fun _ => inr "{}";
     index_query := fun _ _ k _ =>
       inr (firstn (Z.to_nat k) [mkHit "hit-a"; mkHit "hit-b"; mkHit "hit-c"]);
     chat_model_new := fun model key temperature =>
       inr (mkChatModel model key temperature);
     create_stuff_documents_chain := fun llm => inr (mkChain llm);
     chain_invoke := fun _ _ _ => inr "an answer" |}.

(** The same world with no credentials in the environment. *)
Definition world_without_keys : World :=
  {| environ := fun _ => None;
     directory_load := directory_load (sample_world sample_pages []);
     text_splitter_new := text_splitter_new (sample_world sample_pages []);
     split_documents := split_documents (sample_world sample_pages []);
     pinecone_new := pinecone_new (sample_world sample_pages []);
     list_index_names := list_index_names (sample_world sample_pages []);
     delete_index := delete_index (sample_world sample_pages []);
     create_index_for_model :=
       create_index_for_model (sample_world sample_pages []);
     open_index := open_index (sample_world sample_pages []);
     upsert_records := upsert_records (sample_world sample_pages []);
     describe_index_stats :=
       describe_index_stats (sample_world sample_pages []);
     index_query := index_query (sample_world sample_pages []);
     chat_model_new := chat_model_new (sample_world sample_pages []);
     create_stuff_documents_chain :=
       create_stuff_documents_chain (sample_world sample_pages []);
     chain_invoke := chain_invoke (sample_world sample_pages []) |}.

(** The same world whose loader fails, as on an unreadable file. *)
Definition world_loader_fails : World :=
  {| environ := environ (sample_world sample_pages []);
     directory_load := fun _ => inl (Exception "Permission denied");
     text_splitter_new := text_splitter_new (sample_world sample_pages []);
     split_documents := split_documents (sample_world sample_pages []);
     pinecone_new := pinecone_new (sample_world sample_pages []);
     list_index_names := list_index_names (sample_world sample_pages []);
     delete_index := delete_index (sample_world sample_pages []);
     create_index_for_model :=
       create_index_for_model (sample_world sample_pages []);
     open_index := open_index (sample_world sample_pages []);
     upsert_records := upsert_records (sample_world sample_pages []);
     describe_index_stats :=
       describe_index_stats (sample_world sample_pages []);
     index_query := index_query (sample_world sample_pages []);
     chat_model_new := chat_model_new (sample_world sample_pages []);
     create_stuff_documents_chain :=
       create_stuff_documents_chain (sample_world sample_pages []);
     chain_invoke := chain_invoke (sample_world sample_pages []) |}.

(** [n] one-line chunks. *)
Definition sample_chunks (n : nat) : list Document :=
  map (fun i => mkDocument ("chunk " ++ str_of_nat i) "budget.pdf" i)
      (seq 0 n).

(** A world whose index service refuses to create the index. *)
Definition world_create_fails : World :=
  {| environ := environ (sample_world sample_pages ["lanchain"]);
     directory_load := directory_load (sample_world sample_pages ["lanchain"]);
     text_splitter_new :=
       text_splitter_new (sample_world sample_pages ["lanchain"]);
     split_documents :=
       split_documents (sample_world sample_pages ["lanchain"]);
     pinecone_new := pinecone_new (sample_world sample_pages ["lanchain"]);
     list_index_names :=
       list_index_names (sample_world sample_pages ["lanchain"]);
     delete_index := delete_index (sample_world sample_pages ["lanchain"]);
     create_index_for_model := fun _ _ _ _ _ =>
       inl (Exception "quota exceeded");
     open_index := open_index (sample_world sample_pages ["lanchain"]);
     upsert_records :=
       upsert_records (sample_world sample_pages ["lanchain"]);
     describe_index_stats :=
       describe_index_stats (sample_world sample_pages ["lanchain"]);
     index_query := index_query (sample_world sample_pages ["lanchain"]);
     chat_model_new :=
       chat_model_new (sample_world sample_pages ["lanchain"]);
     create_stuff_documents_chain :=
       create_stuff_documents_chain (sample_world sample_pages ["lanchain"]);
     chain_invoke := chain_invoke (sample_world sample_pages ["lanchain"]) |}.


(** * Properties *)

(** ** Built-ins *)

Lemma str_of_nat_inj (a b : nat) : str_of_nat a = str_of_nat b -> a = b.
Proof.
  unfold str_of_nat. intros H.
  assert (E : Some (Nat.to_uint a) = Some (Nat.to_uint b)).
  { rewrite <- !NilEmpty.usu. now rewrite H. }
  injection E as E.
  rewrite <- (Unsigned.of_to a), <- (Unsigned.of_to b). now rewrite E.
Qed.

Lemma enumerate_from_length {A} (l : list A) (start : nat) :
  List.length (enumerate_from start l) = List.length l.
Proof.
  revert start. induction l as [|x l IH]; intros start; simpl.
  - reflexivity.
  - now rewrite IH.
Qed.

Lemma enumerate_from_nth {A} (l : list A) (start i : nat) (x : A) :
  nth_error l i = Some x ->
  nth_error (enumerate_from start l) i = Some (start + i, x).
Proof.
  revert start i. induction l as [|y l IH]; intros start i H.
  - destruct i; discriminate.
  - destruct i as [|i]; simpl in *.
    + injection H as ->. now rewrite Nat.add_0_r.
    + rewrite (IH (S start) i H). f_equal. f_equal. lia.
Qed.

Lemma enumerate_from_fst {A} (l : list A) (start : nat) :
  map fst (enumerate_from start l) = seq start (List.length l).
Proof.
  revert start. induction l as [|x l IH]; intros start; simpl.
  - reflexivity.
  - now rewrite IH.
Qed.

(** The elements of a range: [start + k * step] for each position [k]. *)
Lemma range_fuel_nth (step fuel start stop k i : nat) :
  nth_error (range_fuel fuel start stop step) k = Some i ->
  i = start + k * step /\ i < stop.
Proof.
  revert start k. induction fuel as [|fuel IH]; intros start k H; simpl in H.
  - destruct k; discriminate.
  - destruct (Nat.ltb start stop) eqn:E.
    + apply Nat.ltb_lt in E. destruct k as [|k]; simpl in H.
      * injection H as <-. lia.
      * apply IH in H. lia.
    + destruct k; discriminate.
Qed.

(** With enough fuel a range over steps of 50 has [ceil((stop-start)/50)]
    elements. *)
Lemma ceil_div_50_step (d : nat) :
  0 < d -> (d + 49) / 50 = S ((d - 50 + 49) / 50).
Proof.
  intros Hd. destruct (le_lt_dec 50 d) as [Hge|Hlt].
  - replace (d + 49) with (d - 50 + 49 + 1 * 50) by lia.
    rewrite Nat.div_add by lia. lia.
  - replace (d - 50) with 0 by lia.
    symmetry. apply (Nat.div_unique _ 50 1 (d - 1)); lia.
Qed.

Lemma range_fuel_length (fuel start stop : nat) :
  stop - start <= fuel ->
  List.length (range_fuel fuel start stop 50) = (stop - start + 49) / 50.
Proof.
  revert start. induction fuel as [|fuel IH]; intros start H.
  - replace (stop - start) with 0 by lia. reflexivity.
  - cbn [range_fuel]. destruct (Nat.ltb start stop) eqn:E.
    + apply Nat.ltb_lt in E. cbn [List.length]. rewrite IH by lia.
      rewrite (ceil_div_50_step (stop - start)) by lia.
      do 3 f_equal. lia.
    + apply Nat.ltb_ge in E. replace (stop - start) with 0 by lia.
      reflexivity.
Qed.

(** Slices taken at the offsets of a range tile the list from [start] on. *)
Lemma range_fuel_concat {A} (l : list A) (step fuel start : nat) :
  0 < step ->
  List.length l - start <= fuel ->
  List.concat (map (fun i => py_slice l i (i + step))
              (range_fuel fuel start (List.length l) step))
  = skipn start l.
Proof.
  intros Hstep. revert start.
  induction fuel as [|fuel IH]; intros start H; simpl.
  - symmetry. apply skipn_all2. lia.
  - destruct (Nat.ltb start (List.length l)) eqn:E.
    + simpl. rewrite IH by lia. unfold py_slice.
      replace (start + step - start) with step by lia.
      rewrite (Nat.add_comm start step), <- skipn_skipn.
      apply firstn_skipn.
    + apply Nat.ltb_ge in E. symmetry. apply skipn_all2. lia.
Qed.

Lemma py_slice_length {A} (l : list A) (i j : nat) :
  List.length (py_slice l i j) = Nat.min (j - i) (List.length l - i).
Proof. unfold py_slice. now rewrite length_firstn, length_skipn. Qed.

(** ** The batches of the upsert loop *)

Lemma upsert_batches_length (records : list IndexRecord) :
  List.length (upsert_batches records) = (List.length records + 49) / 50.
Proof.
  unfold upsert_batches, py_range, batch_size. rewrite length_map.
  rewrite range_fuel_length by lia. now rewrite Nat.sub_0_r.
Qed.

Lemma upsert_batches_concat (records : list IndexRecord) :
  List.concat (upsert_batches records) = records.
Proof.
  unfold upsert_batches, py_range, batch_size.
  now rewrite range_fuel_concat by lia.
Qed.

Lemma upsert_batches_nth (records : list IndexRecord) (k : nat)
    (batch : list IndexRecord) :
  nth_error (upsert_batches records) k = Some batch ->
  batch = py_slice records (k * 50) (k * 50 + 50)
  /\ k * 50 < List.length records.
Proof.
  unfold upsert_batches, py_range, batch_size. rewrite nth_error_map.
  destruct (nth_error _ k) as [i|] eqn:E; [|discriminate].
  intros [= <-]. apply range_fuel_nth in E. simpl in E.
  destruct E as [-> E]. split; [reflexivity | exact E].
Qed.

Lemma upsert_batches_bounded (records : list IndexRecord) :
  Forall (fun batch => 1 <= List.length batch <= 50) (upsert_batches records).
Proof.
  apply Forall_forall. intros batch Hin.
  apply In_nth_error in Hin. destruct Hin as [k Hk].
  apply upsert_batches_nth in Hk. destruct Hk as [-> Hk].
  rewrite py_slice_length. lia.
Qed.

Lemma upsert_batches_full (records : list IndexRecord) (k : nat) :
  S k < List.length (upsert_batches records) ->
  List.length (nth k (upsert_batches records) []) = 50.
Proof.
  intros H.
  assert (Hk : k < List.length (upsert_batches records)) by lia.
  rewrite upsert_batches_length in H.
  destruct (nth_error (upsert_batches records) k) as [batch|] eqn:E.
  - rewrite (nth_error_nth _ _ _ E).
    apply upsert_batches_nth in E. destruct E as [-> _].
    rewrite py_slice_length.
    assert (50 * (k + 2) <= List.length records + 49).
    { pose proof (Nat.div_mod_eq (List.length records + 49) 50).
      nia. }
    lia.
  - apply nth_error_None in E. lia.
Qed.

(** ** The index records *)

Lemma build_records_length (documents : list Document) :
  List.length (build_records documents) = List.length documents.
Proof.
  unfold build_records, enumerate.
  now rewrite length_map, enumerate_from_length.
Qed.

Lemma build_records_nth (documents : list Document) (i : nat)
    (doc : Document) :
  nth_error documents i = Some doc ->
  nth_error (build_records documents) i
  = Some (mkIndexRecord ("doc_" ++ str_of_nat i) (page_content doc)
                        "budget").
Proof.
  intros H. unfold build_records, enumerate.
  rewrite nth_error_map, (enumerate_from_nth _ 0 i doc H). reflexivity.
Qed.

Lemma build_records_ids (documents : list Document) :
  map _id (build_records documents)
  = map (fun i => ("doc_" ++ str_of_nat i)%string)
        (seq 0 (List.length documents)).
Proof.
  unfold build_records, enumerate.
  rewrite <- enumerate_from_fst, !map_map.
  apply map_ext. now intros [i doc].
Qed.

Lemma doc_id_inj (a b : nat) :
  ("doc_" ++ str_of_nat a)%string = ("doc_" ++ str_of_nat b)%string -> a = b.
Proof. simpl. intros [= H]. now apply str_of_nat_inj. Qed.

Lemma build_records_ids_NoDup (documents : list Document) :
  NoDup (map _id (build_records documents)).
Proof.
  rewrite build_records_ids.
  apply Injective_map_NoDup; [|apply seq_NoDup].
  intros a b. apply doc_id_inj.
Qed.

(** ** Running the monad *)

Arguments String.append : simpl never.
Arguments str_of_nat : simpl never.
Arguments py_range : simpl never.
Arguments build_records : simpl never.
Arguments repr_hits : simpl never.

Lemma service_calls_app (a b : list Event) :
  service_calls (a ++ b) = service_calls a ++ service_calls b.
Proof. apply filter_app. Qed.

Lemma upserted_batches_app (a b : list Event) :
  upserted_batches (a ++ b) = upserted_batches a ++ upserted_batches b.
Proof. apply flat_map_app. Qed.

Lemma service_calls_cons (e : Event) (l : list Event) :
  service_calls (e :: l)
  = (if is_print e then [] else [e]) ++ service_calls l.
Proof. unfold service_calls. cbn. now destruct (is_print e). Qed.

Lemma bind_returns {A B} (m : M A) (k : A -> M B) g ev g1 a :
  m g = (ev, g1, Ret a) ->
  bind m k g
  = (ev ++ events (k a g1), globals (k a g1), outcome (k a g1)).
Proof.
  intros H. unfold bind. rewrite H.
  now destruct (k a g1) as [[ev2 g2] r].
Qed.

Lemma bind_raises {A B} (m : M A) (k : A -> M B) g ev g1 e :
  m g = (ev, g1, Raise e) -> bind m k g = (ev, g1, Raise e).
Proof. intros H. unfold bind. now rewrite H. Qed.

Section EmitsOnly.

Variable P : Event -> Prop.

Lemma emits_only_ret {A} (a : A) : emits_only P (ret a).
Proof. intros g. constructor. Qed.

Lemma emits_only_raise {A} (e : Exn) : emits_only P (@raise A e).
Proof. intros g. constructor. Qed.

Lemma emits_only_sys_exit {A} (c : Z) : emits_only P (@sys_exit A c).
Proof. intros g. constructor. Qed.

Lemma emits_only_emit (e : Event) : P e -> emits_only P (emit e).
Proof. intros H g. now repeat constructor. Qed.

Lemma emits_only_print (line : string) :
  P (EvPrint line) -> emits_only P (print line).
Proof. apply emits_only_emit. Qed.

Lemma emits_only_sleep (n : nat) : P (EvSleep n) -> emits_only P (sleep n).
Proof. apply emits_only_emit. Qed.

Lemma emits_only_call {A} (e : Event) (answer : Exn + A) :
  P e -> emits_only P (call e answer).
Proof. intros H g. now repeat constructor. Qed.

Lemma emits_only_bind {A B} (m : M A) (k : A -> M B) :
  emits_only P m -> (forall a, emits_only P (k a)) ->
  emits_only P (bind m k).
Proof.
  intros Hm Hk g. specialize (Hm g). unfold bind.
  destruct (m g) as [[ev g1] [a|e|c]]; cbn in *; try assumption.
  specialize (Hk a g1). destruct (k a g1) as [[ev2 g2] r]; cbn in *.
  apply Forall_app. now split.
Qed.

Lemma emits_only_try {A} (body : M A) (handler : Exn -> M A) :
  emits_only P body -> (forall e, emits_only P (handler e)) ->
  emits_only P (try_except body handler).
Proof.
  intros Hb Hh g. specialize (Hb g). unfold try_except.
  destruct (body g) as [[ev g1] [a|e|c]]; cbn in *; try assumption.
  specialize (Hh e g1). destruct (handler e g1) as [[ev2 g2] r]; cbn in *.
  apply Forall_app. now split.
Qed.

Lemma emits_only_for_each {A} (xs : list A) (body : A -> M unit) :
  (forall x, emits_only P (body x)) -> emits_only P (for_each xs body).
Proof.
  intros Hb. induction xs as [|x xs IH]; cbn [for_each].
  - apply emits_only_ret.
  - apply emits_only_bind; [apply Hb | intros _; exact IH].
Qed.

Lemma emits_only_get_index : emits_only P get_index.
Proof. intros g. constructor. Qed.

Lemma emits_only_get_chain : emits_only P get_chain.
Proof. intros g. constructor. Qed.

Lemma emits_only_set_index (i : Index) : emits_only P (set_index i).
Proof. intros g. constructor. Qed.

Lemma emits_only_set_chain (c : Chain) : emits_only P (set_chain c).
Proof. intros g. constructor. Qed.

Lemma emits_only_environ (w : World) (key : string) :
  emits_only P (environ_getitem w key).
Proof.
  unfold environ_getitem. destruct (environ w key); intros g; constructor.
Qed.

End EmitsOnly.

Create HintDb emits.
#[local] Hint Resolve emits_only_ret emits_only_raise emits_only_sys_exit
  emits_only_print emits_only_sleep emits_only_call emits_only_bind
  emits_only_try emits_only_for_each emits_only_get_index
  emits_only_get_chain emits_only_set_index emits_only_set_chain
  emits_only_environ : emits.

(** Steps through a function of the script: every bind, branch and call is
    covered by a lemma of the database; what is left are the facts [P e] for
    the events the function can emit. *)
Ltac emits_step :=
  lazymatch goal with
  | |- emits_only _ (if ?b then _ else _) => destruct b
  | |- emits_only _ (match ?o with Some _ => _ | None => _ end) => destruct o
  | |- emits_only _ (bind _ _) => apply emits_only_bind; [|intros ?]
  | |- emits_only _ (try_except _ _) => apply emits_only_try; [|intros ?]
  | |- emits_only _ (for_each _ _) => apply emits_only_for_each; intros ?
  | |- emits_only _ (print _) => apply emits_only_print
  | |- emits_only _ (sleep _) => apply emits_only_sleep
  | |- emits_only _ (call _ _) => apply emits_only_call
  | |- emits_only _ _ => solve [auto with emits]
  end.

Ltac emits_walk := repeat emits_step.

(** A property that holds of each event a function can emit holds of its
    whole trace, whatever the services answer.  The upserts, which always
    name the namespace [default], and the answering path have hypotheses of
    their own. *)
Section Traces.

Variable w : World.
Variable P : Event -> Prop.

Hypothesis P_print : forall line, P (EvPrint line).
Hypothesis P_load : forall d, P (EvLoad d).
Hypothesis P_splitter : forall s o, P (EvTextSplitter s o).
Hypothesis P_split : forall docs, P (EvSplitDocuments docs).
Hypothesis P_pinecone : forall k, P (EvPinecone k).
Hypothesis P_list : P EvListIndexes.
Hypothesis P_delete : forall n, P (EvDeleteIndex n).
Hypothesis P_sleep : forall n, P (EvSleep n).
Hypothesis P_create : forall n c r m f, P (EvCreateIndexForModel n c r m f).
Hypothesis P_open : forall n, P (EvOpenIndex n).
Hypothesis P_stats : forall i, P (EvDescribeIndexStats i).
Hypothesis P_chat : forall m k t, P (EvChatModel m k t).
Hypothesis P_chain : forall l, P (EvCreateChain l).

Lemma read_doc_emits (directory : string) :
  emits_only P (read_doc w directory).
Proof. unfold read_doc. emits_walk; auto. Qed.

Lemma chunk_data_emits docs size overlap :
  emits_only P (chunk_data w docs size overlap).
Proof. unfold chunk_data. emits_walk; auto. Qed.

Hypothesis P_upsert :
  forall i batch, P (EvUpsertRecords i "default" batch).

Lemma setup_pinecone_index_emits documents :
  emits_only P (setup_pinecone_index w documents).
Proof. unfold setup_pinecone_index, upsert_batch. emits_walk; auto. Qed.

Hypothesis P_answers : emits_only P (retrieve_answers w QUERY).

Lemma main_emits : emits_only P (main w).
Proof.
  pose proof read_doc_emits. pose proof chunk_data_emits.
  pose proof setup_pinecone_index_emits.
  unfold main. emits_walk; auto.
Qed.

Lemma script_emits : emits_only P (script w).
Proof. pose proof main_emits. unfold script. emits_walk; auto. Qed.

End Traces.

Arguments service_calls : simpl never.
Arguments py_in : simpl never.
Arguments index_name : simpl never.

Ltac calls_norm :=
  cbn [events globals outcome fst snd];
  repeat (rewrite ?service_calls_cons, ?service_calls_app);
  cbn [is_print app]; change (service_calls []) with (@nil Event).

Ltac crashed :=
  cbn; calls_norm;
  split; [reflexivity | split; [eexists; reflexivity | split]];
  intros ? [=].

(** ** Runs of the build phase *)

Section Build.

Variable w : World.

Lemma upsert_batch_run (index : Index) (records : list IndexRecord)
    (i : nat) (g : Globals) :
  exists line,
    upsert_batch w index records i g
    = ([EvPrint line;
        EvUpsertRecords index "default"
          (py_slice records i (i + batch_size))],
       g,
       match upsert_records w index "default"
               (py_slice records i (i + batch_size)) with
       | inl e => Raise e
       | inr _ => Ret tt
       end).
Proof.
  eexists. unfold upsert_batch. cbn.
  destruct (upsert_records w index "default" _) as [e|[]]; reflexivity.
Qed.

(** The loop either runs through every offset, or stops at the first batch
    the service refuses; the globals are untouched. *)
Lemma upsert_loop_run (index : Index) (records : list IndexRecord)
    (offsets : list nat) (g : Globals) :
  let slice := fun i => py_slice records i (i + batch_size) in
  let r := for_each offsets (upsert_batch w index records) g in
  globals r = g
  /\ ((outcome r = Ret tt
       /\ service_calls (events r)
          = map (EvUpsertRecords index "default") (map slice offsets))
      \/ (exists e k,
            outcome r = Raise e
            /\ k < List.length offsets
            /\ upsert_records w index "default"
                 (slice (nth k offsets 0)) = inl e
            /\ service_calls (events r)
               = map (EvUpsertRecords index "default")
                     (map slice (firstn (S k) offsets)))).
Proof.
  intros slice. induction offsets as [|i rest IH]; cbn zeta.
  - split; [reflexivity | left; split; reflexivity].
  - cbn [for_each]. destruct (upsert_batch_run index records i g) as [line E].
    destruct (upsert_records w index "default" _) as [e|u] eqn:Ea.
    + rewrite (bind_raises _ _ _ _ _ _ E). split; [reflexivity|].
      right. exists e, 0. cbn. repeat split; try lia. exact Ea.
    + rewrite (bind_returns _ _ _ _ _ _ E). cbn zeta in IH.
      destruct IH as [IHg IH]. split; [exact IHg|].
      cbn [events globals outcome fst snd].
      rewrite service_calls_app.
      destruct IH as [[Ho Hc]|(e & k & Ho & Hk & Ha & Hc)].
      * left. split; [exact Ho|]. now rewrite Hc.
      * right. exists e, (S k). rewrite Hc.
        repeat split; try assumption. cbn [List.length]. lia.
Qed.

Lemma try_except_report {A} (body : M A) (report : Exn -> string)
    (advice : string) (g : Globals) :
  let r := try_except body
             (fun e => print (report e) ;; print advice ;; raise e) g in
  service_calls (events r) = service_calls (events (body g))
  /\ upserted_batches (events r) = upserted_batches (events (body g))
  /\ globals r = globals (body g)
  /\ outcome r = outcome (body g).
Proof.
  unfold try_except.
  destruct (body g) as [[ev g1] [a|e|c]]; cbn;
    rewrite ?service_calls_app, ?upserted_batches_app; cbn;
    rewrite ?app_nil_r; auto.
Qed.

(** The writes of the build, from the loop to the statistics. *)
Lemma upsert_phase_run (index : Index) (documents : list Document)
    (g : Globals) :
  let records := build_records documents in
  let r :=
    (for_each (py_range 0 (List.length records) batch_size)
              (upsert_batch w index records) ;;
     print ("Upserted " ++ str_of_nat (List.length documents)
            ++ " documents into index '" ++ index_name ++ "'.") ;;
     stats <- call (EvDescribeIndexStats index)
                   (describe_index_stats w index) ;;
     print ("Index stats: " ++ stats) ;;
     ret index) g in
  let writes :=
    map (EvUpsertRecords index "default") (upsert_batches records)
    ++ [EvDescribeIndexStats index] in
  globals r = g
  /\ (exists rest, writes = service_calls (events r) ++ rest)
  /\ (forall idx, outcome r = Ret idx ->
        idx = index /\ service_calls (events r) = writes)
  /\ (forall c, outcome r <> SysExit c).
Proof.
  cbn zeta. unfold upsert_batches.
  set (offsets := py_range 0 _ batch_size).
  pose proof (upsert_loop_run index (build_records documents) offsets g) as L.
  cbn zeta in L.
  destruct (for_each offsets _ g) as [[ev g1] o] eqn:E. cbn in L.
  destruct L as [-> [[-> Hc]|(e & k & -> & Hk & Ha & Hc)]].
  - rewrite (bind_returns _ _ _ _ _ _ E). cbn.
    destruct (describe_index_stats w index) as [e|stats]; cbn;
      calls_norm; rewrite Hc.
    + split; [reflexivity | split; [exists []; now rewrite app_nil_r | split]];
        intros ? [=].
    + split; [reflexivity | split; [exists []; now rewrite app_nil_r | split]].
      * intros ? [= <-]. now split.
      * intros ? [=].
  - rewrite (bind_raises _ _ _ _ _ _ E). calls_norm. rewrite Hc.
    split; [reflexivity | split; [|split]]; try (intros ? [=]).
    eexists. rewrite <- (firstn_skipn (S k) offsets) at 1.
    rewrite !map_app, <- app_assoc. reflexivity.
Qed.

Ltac finish_build idx documents g :=
  cbn; pose proof (upsert_phase_run idx documents g) as T;
  cbn zeta in T;
  match type of T with globals ?t = _ /\ _ =>
    destruct t as [[ev g1] o] end;
  cbn in T; destruct T as (-> & [rest Hrest] & Hret & Hexit);
  calls_norm; split; [reflexivity | split; [|split]];
  [ exists rest; cbn [app]; now rewrite Hrest
  | intros idx0 Ho; destruct (Hret idx0 Ho) as [-> ->]; now split
  | exact Hexit ].

(** Every run of the build: the globals are untouched, the calls made are
    an initial part of [build_calls], and all of it when the run returns. *)
Lemma setup_run (documents : list Document) (g : Globals) :
  let r := setup_pinecone_index w documents g in
  globals r = g
  /\ (exists rest, build_calls w documents = service_calls (events r) ++ rest)
  /\ (forall idx, outcome r = Ret idx ->
        open_index w index_name = inr idx
        /\ service_calls (events r) = build_calls w documents)
  /\ (forall c, outcome r <> SysExit c).
Proof.
  cbn zeta. unfold setup_pinecone_index.
  match goal with |- context [try_except ?b (fun e => print (?f1 ++ _) ;; print ?l2 ;; _) g] =>
    destruct (try_except_report b (fun e => (f1 ++ exn_str e)%string) l2 g)
      as (-> & _ & -> & ->) end.
  unfold build_calls, environ_getitem.
  destruct (environ w "PINECONE_API_KEY") as [key|]; [|crashed].
  cbn. destruct (pinecone_new w key) as [e|[]]; [crashed|].
  cbn. destruct (list_index_names w) as [e|names]; [crashed|].
  cbn. unfold reset_steps.
  destruct (py_in index_name names).
  - cbn. destruct (delete_index w _) as [e|[]]; [crashed|].
    cbn. destruct (create_index_for_model w _ _ _ _ _) as [e|[]]; [crashed|].
    cbn. destruct (open_index w _) as [e|idx]; [crashed|].
    finish_build idx documents g.
  - cbn. destruct (create_index_for_model w _ _ _ _ _) as [e|[]]; [crashed|].
    cbn. destruct (open_index w _) as [e|idx]; [crashed|].
    finish_build idx documents g.
Qed.

Lemma upsert_phase_returns (index : Index) (documents : list Document)
    (stats : string) (g : Globals) :
  (forall batch,
     In batch (upsert_batches (build_records documents)) ->
     upsert_records w index "default" batch = inr tt) ->
  describe_index_stats w index = inr stats ->
  outcome
    ((for_each (py_range 0 (List.length (build_records documents))
                         batch_size)
               (upsert_batch w index (build_records documents)) ;;
      print ("Upserted " ++ str_of_nat (List.length documents)
             ++ " documents into index '" ++ index_name ++ "'.") ;;
      stats <- call (EvDescribeIndexStats index)
                    (describe_index_stats w index) ;;
      print ("Index stats: " ++ stats) ;;
      ret index) g)
  = Ret index.
Proof.
  intros Hup Hst. unfold upsert_batches in Hup.
  set (offsets := py_range 0 _ batch_size) in *.
  pose proof (upsert_loop_run index (build_records documents) offsets g) as L.
  cbn zeta in L.
  destruct (for_each offsets _ g) as [[ev g1] o] eqn:E. cbn in L.
  destruct L as [-> [[-> Hc]|(e & k & -> & Hk & Ha & Hc)]].
  - rewrite (bind_returns _ _ _ _ _ _ E). cbn. now rewrite Hst.
  - rewrite Hup in Ha; [discriminate|].
    apply (in_map (fun i => py_slice _ i (i + batch_size))), nth_In, Hk.
Qed.

(** When the services answer, the build returns the handle. *)
Lemma setup_returns (documents : list Document) (index : Index)
    (g : Globals) :
  build_answers w documents index ->
  outcome (setup_pinecone_index w documents g) = Ret index.
Proof.
  intros (key & names & stats & Hkey & Hpc & Hls & Hdel & Hcr & Hop & Hup
          & Hst).
  unfold setup_pinecone_index.
  match goal with
  | |- context [try_except ?b (fun e => print (?f1 ++ _) ;; print ?l2 ;; _) g]
    => destruct (try_except_report b (fun e => (f1 ++ exn_str e)%string) l2 g)
         as (_ & _ & _ & ->)
  end.
  pose proof (upsert_phase_returns index documents stats g Hup Hst) as T.
  unfold environ_getitem. rewrite Hkey. cbn. rewrite Hpc. cbn.
  rewrite Hls. cbn. destruct (py_in index_name names).
  - cbn. rewrite (Hdel eq_refl). cbn. rewrite Hcr. cbn. rewrite Hop. cbn.
    match type of T with outcome ?t = _ =>
      destruct t as [[ev g1] o] end.
    cbn in T. now subst o.
  - cbn. rewrite Hcr. cbn. rewrite Hop. cbn.
    match type of T with outcome ?t = _ =>
      destruct t as [[ev g1] o] end.
    cbn in T. now subst o.
Qed.


End Build.

Lemma upserted_batches_service_calls (evs : list Event) :
  upserted_batches (service_calls evs) = upserted_batches evs.
Proof.
  induction evs as [|e evs IH]; [reflexivity|].
  rewrite service_calls_cons, upserted_batches_app.
  change (e :: evs) with ([e] ++ evs). rewrite upserted_batches_app, IH.
  now destruct e.
Qed.

Lemma upserted_batches_map (index : Index) (ns : string)
    (batches : list (list IndexRecord)) :
  upserted_batches (map (EvUpsertRecords index ns) batches) = batches.
Proof.
  induction batches as [|b batches IH]; [reflexivity|].
  cbn. unfold upserted_batches in IH. now rewrite IH.
Qed.

Lemma upserted_batches_build_calls (w : World) (documents : list Document) :
  upserted_batches (build_calls w documents)
  = upsert_batches (build_records documents).
Proof.
  unfold build_calls, reset_steps.
  rewrite !upserted_batches_app, upserted_batches_map.
  destruct (py_in index_name _); cbn; now rewrite app_nil_r.
Qed.

Lemma py_in_In (name : string) (names : list string) :
  py_in name names = true <-> In name names.
Proof.
  unfold py_in. rewrite existsb_exists. split.
  - intros (x & Hin & Heq). apply String.eqb_eq in Heq. now subst.
  - intros H. exists name. split; [exact H | apply String.eqb_refl].
Qed.

(** The batches a run of the build issued, against the batches of the
    loop. *)
Lemma setup_upserts (w : World) (documents : list Document) (g : Globals) :
  let r := setup_pinecone_index w documents g in
  let issued := upserted_batches (events r) in
  let planned := upsert_batches (build_records documents) in
  (exists later, planned = issued ++ later)
  /\ (forall idx, outcome r = Ret idx -> issued = planned).
Proof.
  cbn zeta.
  destruct (setup_run w documents g) as (_ & [rest Hrest] & Hret & _).
  split.
  - exists (upserted_batches rest).
    rewrite <- (upserted_batches_build_calls w documents), Hrest,
      upserted_batches_app.
    now rewrite upserted_batches_service_calls.
  - intros idx Ho. destruct (Hret idx Ho) as [_ Hc].
    rewrite <- (upserted_batches_build_calls w documents), <- Hc.
    now rewrite upserted_batches_service_calls.
Qed.

(** * The claims *)

(** C1. The upsert phase of [setup_pinecone_index] cuts the [n] records
    into [ceil(n/50)] batches of at most 50 records, every batch but
    possibly the last of exactly 50, whose concatenation in order is the
    record sequence.  Every run issues an initial part of these batches, in
    order, and a run that returns has issued them all. *)
Theorem upsert_batching (w : World) (documents : list Document)
    (g : Globals) :
  let records := build_records documents in
  let planned := upsert_batches records in
  let r := setup_pinecone_index w documents g in
  let issued := upserted_batches (events r) in
  List.length planned = (List.length records + 49) / 50
  /\ Forall (fun batch => 1 <= List.length batch <= 50) planned
  /\ (forall k, S k < List.length planned ->
                List.length (nth k planned []) = 50)
  /\ List.concat planned = records
  /\ (exists later, planned = issued ++ later)
  /\ (forall idx, outcome r = Ret idx -> issued = planned).
Proof.
  cbn zeta. repeat apply conj.
  - apply upsert_batches_length.
  - apply upsert_batches_bounded.
  - apply upsert_batches_full.
  - apply upsert_batches_concat.
  - apply setup_upserts.
  - apply setup_upserts.
Qed.

(** A build over 120 chunks returns after batches of 50, 50 and 20
    records. *)
Lemma upsert_batching_witness :
  let w := sample_world [] [] in
  let r := setup_pinecone_index w (sample_chunks 120) no_globals in
  (outcome r = Ret (mkIndex "lanchain")
   /\ map (@List.length IndexRecord) (upserted_batches (events r))
      = [50; 50; 20])
  /\ upserted_batches (events r)
     = upsert_batches (build_records (sample_chunks 120)).
Proof.
  cbn zeta. split.
  - split; vm_compute; reflexivity.
  - apply (upsert_batching (sample_world [] []) (sample_chunks 120)
             no_globals) with (idx := mkIndex "lanchain").
    vm_compute. reflexivity.
Defined.

(** C2. For [n] chunks [setup_pinecone_index] builds [n] records; the
    record at position [i] has identifier [doc_i], the text of chunk [i] and
    the category [budget]; the identifiers are pairwise distinct and depend
    on the number of chunks only; a build that returns has written exactly
    these records, in order. *)
Theorem index_records (w : World) (documents : list Document)
    (g : Globals) :
  let records := build_records documents in
  let r := setup_pinecone_index w documents g in
  List.length records = List.length documents
  /\ (forall i doc,
        nth_error documents i = Some doc ->
        nth_error records i
        = Some {| _id := "doc_" ++ str_of_nat i;
                  chunk_text := page_content doc;
                  category := "budget" |})
  /\ NoDup (map _id records)
  /\ (forall other,
        List.length other = List.length documents ->
        map _id (build_records other) = map _id records)
  /\ (forall idx,
        outcome r = Ret idx ->
        List.concat (upserted_batches (events r)) = records).
Proof.
  cbn zeta. repeat apply conj.
  - apply build_records_length.
  - apply build_records_nth.
  - apply build_records_ids_NoDup.
  - intros other H. now rewrite !build_records_ids, H.
  - intros idx Ho.
    destruct (setup_upserts w documents g) as [_ H].
    rewrite (H idx Ho). apply upsert_batches_concat.
Qed.

(** Three chunks give [doc_0], [doc_1], [doc_2], and the build writes
    them. *)
Lemma index_records_witness :
  let w := sample_world [] [] in
  let r := setup_pinecone_index w (sample_chunks 3) no_globals in
  map _id (build_records (sample_chunks 3)) = ["doc_0"; "doc_1"; "doc_2"]
  /\ List.concat (upserted_batches (events r))
     = build_records (sample_chunks 3).
Proof.
  cbn zeta. split.
  - vm_compute. reflexivity.
  - apply (index_records (sample_world [] []) (sample_chunks 3) no_globals)
      with (idx := mkIndex "lanchain").
    vm_compute. reflexivity.
Defined.

(** C7. In every run of [setup_pinecone_index] the calls made are an
    initial part of one fixed sequence: client, index list, then the reset
    steps (delete and a wait of 10 only when the name is in the list, create
    with the embedding model and the field map, a wait of 10, the index
    handle), then the upserts and the statistics.  A run that returns made
    all of them, and a run returns whenever the services answer. *)
Theorem reset_order (w : World) (documents : list Document) (g : Globals) :
  let r := setup_pinecone_index w documents g in
  let calls := service_calls (events r) in
  let names := answer_or [] (list_index_names w) in
  let create :=
    EvCreateIndexForModel "lanchain" "aws" "us-east-1"
      "llama-text-embed-v2" [("text", "chunk_text")] in
  (exists api_key index,
     build_calls w documents
     = [EvPinecone api_key; EvListIndexes]
       ++ reset_steps names
       ++ map (EvUpsertRecords index "default")
              (upsert_batches (build_records documents))
       ++ [EvDescribeIndexStats index])
  /\ (In "lanchain" names ->
      reset_steps names
      = [EvDeleteIndex "lanchain"; EvSleep 10;
         create; EvSleep 10; EvOpenIndex "lanchain"])
  /\ (~ In "lanchain" names ->
      reset_steps names = [create; EvSleep 10; EvOpenIndex "lanchain"])
  /\ (exists later, build_calls w documents = calls ++ later)
  /\ (forall idx, outcome r = Ret idx -> calls = build_calls w documents)
  /\ (forall idx, build_answers w documents idx -> outcome r = Ret idx).
Proof.
  cbn zeta.
  destruct (setup_run w documents g) as (_ & Hprefix & Hret & _).
  repeat apply conj.
  - unfold build_calls. eexists. eexists. reflexivity.
  - intros H. apply (py_in_In index_name) in H.
    unfold reset_steps. now rewrite H.
  - intros H. unfold reset_steps.
    destruct (py_in index_name _) eqn:E; [|reflexivity].
    apply py_in_In in E. contradiction.
  - exact Hprefix.
  - intros idx Ho. now destruct (Hret idx Ho).
  - intros idx H. now apply setup_returns.
Qed.

(** With the index already there the build deletes it, waits, creates it,
    waits, opens it and then writes; without it the build starts at the
    creation. *)
Lemma reset_order_witness :
  (service_calls
     (events (setup_pinecone_index (sample_world [] ["other"; "lanchain"])
                (sample_chunks 1) no_globals))
   = [EvPinecone "p-key"; EvListIndexes;
      EvDeleteIndex "lanchain"; EvSleep 10;
      EvCreateIndexForModel "lanchain" "aws" "us-east-1"
        "llama-text-embed-v2" [("text", "chunk_text")];
      EvSleep 10; EvOpenIndex "lanchain";
      EvUpsertRecords (mkIndex "lanchain") "default"
        [mkIndexRecord "doc_0" "chunk 0" "budget"];
      EvDescribeIndexStats (mkIndex "lanchain")])
  /\ service_calls
       (events (setup_pinecone_index (sample_world [] ["other"])
                  (sample_chunks 1) no_globals))
     = build_calls (sample_world [] ["other"]) (sample_chunks 1).
Proof.
  split.
  - vm_compute. reflexivity.
  - apply (reset_order (sample_world [] ["other"]) (sample_chunks 1)
             no_globals) with (idx := mkIndex "lanchain").
    vm_compute. reflexivity.
Defined.

(** C6. [read_doc] never raises and never exits: it returns a list for
    every directory and every behaviour of the loader.  When the loader
    raises, [read_doc] reports the error and returns the empty list. *)
Theorem read_doc_recovers (w : World) (directory : string) (g : Globals) :
  let r := read_doc w directory g in
  (exists docs, outcome r = Ret docs)
  /\ globals r = g
  /\ (forall e,
        directory_load w directory = inl e ->
        outcome r = Ret []
        /\ events r
           = [EvLoad directory;
              EvPrint ("Error loading documents from " ++ directory ++ ": "
                       ++ exn_str e)])
  /\ (forall docs,
        directory_load w directory = inr docs -> outcome r = Ret docs).
Proof.
  cbn zeta. unfold read_doc, try_except, bind, call, print, emit, ret.
  destruct (directory_load w directory) as [e|docs]; cbn.
  - repeat apply conj.
    + now exists [].
    + reflexivity.
    + intros e' [= <-]. now split.
    + intros docs [=].
  - destruct docs as [|d docs]; cbn;
      (split; [eexists; reflexivity
              | split; [reflexivity
                       | split; [intros ? [=]
                                | intros ? [= <-]; reflexivity]]]).
Qed.

(** An unreadable file: the error is printed and the result is empty. *)
Lemma read_doc_recovers_witness :
  let r := read_doc world_loader_fails "docs" no_globals in
  outcome r = Ret []
  /\ events r
     = [EvLoad "docs";
        EvPrint "Error loading documents from docs: Permission denied"].
Proof.
  cbn zeta.
  apply (read_doc_recovers world_loader_fails "docs" no_globals)
    with (e := Exception "Permission denied").
  reflexivity.
Defined.

(** C4. When the loader gives no document, because it found none or
    because it raised, [main] makes no call but the load itself, prints the
    closing message and returns; the globals stay as they were. *)
Theorem main_no_documents (w : World) (g : Globals) :
  (directory_load w DOCUMENTS_DIRECTORY = inr []
   \/ exists e, directory_load w DOCUMENTS_DIRECTORY = inl e) ->
  let r := main w g in
  outcome r = Ret tt
  /\ globals r = g
  /\ service_calls (events r) = [EvLoad DOCUMENTS_DIRECTORY]
  /\ Forall (fun e => is_index_or_llm_call e = false) (events r)
  /\ (exists before,
        events r
        = before
          ++ [EvPrint "Number of documents loaded: 0";
              EvPrint
                "No documents found. Please check the directory path."]).
Proof.
  intros H. cbn zeta.
  unfold main, read_doc, try_except, bind, call, print, emit, ret.
  destruct H as [H|[e H]]; rewrite H; cbn.
  - repeat apply conj; try reflexivity.
    + repeat constructor.
    + eexists [_; _; _]. reflexivity.
  - repeat apply conj; try reflexivity.
    + repeat constructor.
    + eexists [_; _; _]. reflexivity.
Qed.

(** Both cases on the stand-in worlds: an empty directory and a loader
    that fails. *)
Lemma main_no_documents_witness :
  service_calls (events (main (sample_world [] ["lanchain"]) no_globals))
  = [EvLoad DOCUMENTS_DIRECTORY]
  /\ service_calls (events (main world_loader_fails no_globals))
     = [EvLoad DOCUMENTS_DIRECTORY].
Proof.
  split.
  - apply (main_no_documents (sample_world [] ["lanchain"]) no_globals).
    left. reflexivity.
  - apply (main_no_documents world_loader_fails no_globals).
    right. eexists. reflexivity.
Defined.

Lemma truthy_false (v : option string) :
  truthy v = false <-> v = None \/ v = Some "".
Proof.
  destruct v as [[|c s]|]; cbn; split; intros H; try discriminate; auto.
  - destruct H; discriminate.
Qed.

Lemma bind_ret_tt {A} (m : M A) (g : Globals) : (ret tt ;; m) g = m g.
Proof. unfold bind, ret. now destruct (m g) as [[ev g1] r]. Qed.

(** C5. The names printed are exactly the required variables that are
    absent or empty.  If there is one, the script prints the two lines,
    the first listing these names, and exits with code 1 having done
    nothing else; if there is none, that is when both are set and
    non-empty, the script is the run of [main]. *)
Theorem credentials_check (w : World) (g : Globals) :
  let absent var := environ w var = None \/ environ w var = Some "" in
  (forall var,
     In var (missing_vars w) <-> In var required_vars /\ absent var)
  /\ (missing_vars w <> [] ->
      script w g
      = ([EvPrint ("Error: Missing required environment variables: "
                   ++ join ", " (missing_vars w));
          EvPrint "Please create a .env file with your API keys."],
         g, SysExit 1))
  /\ (missing_vars w = [] <->
      ~ absent "GOOGLE_API_KEY" /\ ~ absent "PINECONE_API_KEY")
  /\ (missing_vars w = [] -> script w g = main w g).
Proof.
  cbn beta zeta. split; [|split; [|split]].
  - intros var. unfold missing_vars. rewrite filter_In, negb_true_iff.
    now rewrite truthy_false.
  - intros H. unfold script.
    destruct (missing_vars w) as [|v vs]; [contradiction|]. reflexivity.
  - unfold missing_vars, required_vars. cbn [filter].
    rewrite <- (truthy_false (environ w "GOOGLE_API_KEY")),
      <- (truthy_false (environ w "PINECONE_API_KEY")).
    destruct (truthy (environ w "GOOGLE_API_KEY"));
      destruct (truthy (environ w "PINECONE_API_KEY")); cbn;
      split; try discriminate; try (intros [H1 H2]; congruence);
      try (intros _; split; discriminate).
  - intros H. unfold script. rewrite H. apply bind_ret_tt.
Qed.

(** With neither credential set, both names are listed and the exit code
    is 1; with both set, the script runs [main]. *)
Lemma credentials_check_witness :
  script world_without_keys no_globals
  = ([EvPrint ("Error: Missing required environment variables: "
               ++ "GOOGLE_API_KEY, PINECONE_API_KEY");
      EvPrint "Please create a .env file with your API keys."],
     no_globals, SysExit 1)
  /\ script (sample_world sample_pages []) no_globals
     = main (sample_world sample_pages []) no_globals.
Proof.
  split.
  - apply (credentials_check world_without_keys no_globals).
    vm_compute. discriminate.
  - apply (credentials_check (sample_world sample_pages []) no_globals).
    vm_compute. reflexivity.
Defined.

(** C3, as the claim states it, fails: with a splitter that refuses only an
    overlap larger than the chunk size, [chunk_data] called with chunk size
    5 and overlap 5 on one page returns chunks. *)
Lemma chunk_data_accepts_equal_overlap :
  let page := mkDocument "abc" "a.pdf" 0 in
  (5 >= 5)%Z
  /\ chunk_data (sample_world [] []) [page] (Some 5%Z) (Some 5%Z) no_globals
     = ([EvTextSplitter 5 5; EvSplitDocuments [page]],
        no_globals, Ret [page]).
Proof. split; [lia | vm_compute; reflexivity]. Qed.

(** C3, amended.  [chunk_data] checks nothing itself: on a non-empty
    document list it hands chunk size and overlap unchanged to the splitter,
    raises exactly when the splitter's constructor or its
    [split_documents] raises, and otherwise returns the splitter's chunks,
    whatever the order of overlap and chunk size. *)
Theorem chunk_data_delegates (w : World) (docs : list Document)
    (size overlap : Z) (g : Globals) :
  docs <> [] ->
  let r := chunk_data w docs (Some size) (Some overlap) g in
  globals r = g
  /\ (exists later, events r = EvTextSplitter size overlap :: later)
  /\ (forall e,
        outcome r = Raise e <->
        text_splitter_new w size overlap = inl e
        \/ (text_splitter_new w size overlap = inr tt
            /\ split_documents w size overlap docs = inl e))
  /\ (forall chunks,
        outcome r = Ret chunks <->
        text_splitter_new w size overlap = inr tt
        /\ split_documents w size overlap docs = inr chunks).
Proof.
  intros Hdocs. cbn zeta. destruct docs as [|d docs]; [contradiction|].
  unfold chunk_data, bind, call, ret. cbn.
  destruct (text_splitter_new w size overlap) as [e0|[]]; cbn.
  - split; [reflexivity | split; [eexists; reflexivity | split]].
    + intros e. split.
      * intros [= ->]. now left.
      * intros [[= ->]|[[=] _]]. reflexivity.
    + intros chunks. split; [intros [=] | intros [[=] _]].
  - destruct (split_documents w size overlap (d :: docs)) as [e1|chunks];
      cbn; (split; [reflexivity | split; [eexists; reflexivity | split]]);
      intros x; split.
    + intros [= ->]. right. now split.
    + intros [[=]|[_ [= ->]]]. reflexivity.
    + intros [=].
    + intros [_ [=]].
    + intros [=].
    + intros [[=]|[_ [=]]].
    + intros [= ->]. now split.
    + intros [_ [= ->]]. reflexivity.
Qed.

(** The splitter of the stand-in world refuses overlap 6 for chunk size
    5, and [chunk_data] raises what it raised. *)
Lemma chunk_data_delegates_witness :
  outcome (chunk_data (sample_world [] []) sample_pages
             (Some 5%Z) (Some 6%Z) no_globals)
  = Raise (Exception "Got a larger chunk overlap than chunk size").
Proof.
  apply (chunk_data_delegates (sample_world [] []) sample_pages 5 6
           no_globals).
  - discriminate.
  - left. reflexivity.
Defined.

(** ** Namespace and result count *)

Ltac event_facts :=
  try solve [ intros; intros ? [=]; subst; reflexivity ].

Lemma retrieve_query_namespace (w : World) (query : string) (k : option Z) :
  emits_only in_default_namespace (retrieve_query w query k).
Proof. unfold retrieve_query. emits_walk; event_facts. Qed.

Lemma retrieve_answers_namespace (w : World) (query : string) :
  emits_only in_default_namespace (retrieve_answers w query).
Proof.
  pose proof (retrieve_query_namespace w).
  unfold retrieve_answers. emits_walk; event_facts.
Qed.




(** C8. Every upsert and every query that any function of the script
    issues names the namespace [default]: the batches of the build, the
    query of [retrieve_query] for every text and every [k], and so every
    write and read of a whole run. *)
Theorem single_namespace (w : World) (g : Globals)
    (documents : list Document) (query : string) (k : option Z) :
  Forall in_default_namespace (events (setup_pinecone_index w documents g))
  /\ Forall in_default_namespace (events (retrieve_query w query k g))
  /\ Forall in_default_namespace (events (retrieve_answers w query g))
  /\ Forall in_default_namespace (events (main w g))
  /\ Forall in_default_namespace (events (script w g)).
Proof.
  repeat apply conj.
  - apply setup_pinecone_index_emits; event_facts.
  - apply retrieve_query_namespace.
  - apply retrieve_answers_namespace.
  - apply main_emits; event_facts. apply retrieve_answers_namespace.
  - apply script_emits; event_facts. apply retrieve_answers_namespace.
Qed.

(** A run that writes one batch and reads once: both name [default]. *)
Lemma single_namespace_witness :
  let r := script (sample_world sample_pages []) no_globals in
  flat_map (fun e => match namespace_of e with
                     | Some ns => [ns]
                     | None => []
                     end) (events r)
  = ["default"; "default"]
  /\ Forall in_default_namespace (events r).
Proof.
  cbn zeta. split.
  - vm_compute. reflexivity.
  - apply (single_namespace (sample_world sample_pages []) no_globals
             [] "" None).
Defined.





(** C10. When the loader gives documents and the splitter gives no chunk,
    [main] goes on: it runs the whole reset of the index (the delete only
    when the index is listed), writes no batch, asks for the statistics,
    builds the model and the chain, queries the index and, when the query
    answers, calls the chain. *)
Theorem main_empty_chunks (w : World) (g : Globals)
    (docs : list Document) (key google_key stats : string)
    (names : list string) (index : Index) (llm : ChatModel)
    (chain : Chain) :
  directory_load w DOCUMENTS_DIRECTORY = inr docs ->
  docs <> [] ->
  text_splitter_new w 800 50 = inr tt ->
  split_documents w 800 50 docs = inr [] ->
  environ w "PINECONE_API_KEY" = Some key ->
  pinecone_new w key = inr tt ->
  list_index_names w = inr names ->
  (py_in index_name names = true -> delete_index w index_name = inr tt) ->
  create_index_for_model w index_name "aws" "us-east-1"
    "llama-text-embed-v2" [("text", "chunk_text")] = inr tt ->
  open_index w index_name = inr index ->
  describe_index_stats w index = inr stats ->
  environ w "GOOGLE_API_KEY" = Some google_key ->
  chat_model_new w "gemini-2.0-flash" google_key "0.5" = inr llm ->
  create_stuff_documents_chain w llm = inr chain ->
  let r := main w g in
  service_calls (events r)
  = [EvLoad DOCUMENTS_DIRECTORY; EvTextSplitter 800 50;
     EvSplitDocuments docs; EvPinecone key; EvListIndexes]
    ++ reset_steps names
    ++ [EvDescribeIndexStats index;
        EvChatModel "gemini-2.0-flash" google_key "0.5";
        EvCreateChain llm;
        EvQuery index "default" 2 QUERY]
    ++ match index_query w index "default" 2 QUERY with
       | inr hits => [EvChainInvoke chain hits QUERY]
       | inl _ => []
       end
  /\ upserted_batches (events r) = []
  /\ In (EvPrint "Number of documents after chunking: 0") (events r).
Proof.
  intros Hload Hdocs Hnew Hsplit Hkey Hpc Hls Hdel Hcr Hop Hst Hgk Hllm Hch.
  cbn zeta. destruct docs as [|d docs]; [contradiction|].
  unfold main, read_doc, chunk_data, setup_pinecone_index, retrieve_answers,
    retrieve_query, environ_getitem, try_except, bind, call, print, sleep,
    emit, ret, set_index, set_chain, get_index, get_chain, reset_steps.
  rewrite Hload. cbn. rewrite Hnew. cbn. rewrite Hsplit. cbn.
  rewrite Hkey. cbn. rewrite Hpc. cbn. rewrite Hls. cbn.
  unfold py_range, build_records.
  destruct (py_in index_name names) eqn:E; cbn.
  - rewrite (Hdel eq_refl). cbn. rewrite Hcr. cbn. rewrite Hop. cbn.
    rewrite Hst. cbn. rewrite Hgk. cbn. rewrite Hllm. cbn. rewrite Hch. cbn.
    destruct (index_query w index "default" 2 QUERY) as [e|hits]; cbn.
    + split; [reflexivity | split; [reflexivity|]]. cbn. tauto.
    + destruct (chain_invoke w chain hits QUERY); cbn;
        (split; [reflexivity | split; [reflexivity|]]); cbn; tauto.
  - rewrite Hcr. cbn. rewrite Hop. cbn.
    rewrite Hst. cbn. rewrite Hgk. cbn. rewrite Hllm. cbn. rewrite Hch. cbn.
    destruct (index_query w index "default" 2 QUERY) as [e|hits]; cbn.
    + split; [reflexivity | split; [reflexivity|]]. cbn. tauto.
    + destruct (chain_invoke w chain hits QUERY); cbn;
        (split; [reflexivity | split; [reflexivity|]]); cbn; tauto.
Qed.

(** A directory whose only page is empty: one document, no chunk, and the
    run still resets the index, queries it and calls the chain. *)
Lemma main_empty_chunks_witness :
  let w := sample_world [mkDocument "" "blank.pdf" 0] ["lanchain"] in
  let llm := mkChatModel "gemini-2.0-flash" "g-key" "0.5" in
  service_calls (events (main w no_globals))
  = [EvLoad DOCUMENTS_DIRECTORY; EvTextSplitter 800 50;
     EvSplitDocuments [mkDocument "" "blank.pdf" 0];
     EvPinecone "p-key"; EvListIndexes;
     EvDeleteIndex "lanchain"; EvSleep 10;
     EvCreateIndexForModel "lanchain" "aws" "us-east-1"
       "llama-text-embed-v2" [("text", "chunk_text")];
     EvSleep 10; EvOpenIndex "lanchain";
     EvDescribeIndexStats (mkIndex "lanchain");
     EvChatModel "gemini-2.0-flash" "g-key" "0.5";
     EvCreateChain llm;
     EvQuery (mkIndex "lanchain") "default" 2 QUERY;
     EvChainInvoke (mkChain llm) [mkHit "hit-a"; mkHit "hit-b"] QUERY].
Proof.
  cbn zeta.
  refine (proj1 (main_empty_chunks
            (sample_world [mkDocument "" "blank.pdf" 0] ["lanchain"])
            no_globals [mkDocument "" "blank.pdf" 0] "p-key" "g-key" "{}"
            ["lanchain"] (mkIndex "lanchain")
            (mkChatModel "gemini-2.0-flash" "g-key" "0.5")
            (mkChain (mkChatModel "gemini-2.0-flash" "g-key" "0.5"))
            _ _ _ _ _ _ _ _ _ _ _ _ _ _));
    try reflexivity.
  discriminate.
Defined.

(** * Whole runs: the order of the calls and where their arguments come from *)

Arguments setup_pinecone_index : simpl never.
Arguments build_calls : simpl never.
Arguments DOCUMENTS_DIRECTORY : simpl never.
Arguments QUERY : simpl never.
Arguments answer_or : simpl nomatch.

Ltac main_stopped :=
  calls_norm;
  split; [eexists; reflexivity | split]; [intros [=] | intros ? [=]].

Ltac main_stopped_after Hc :=
  calls_norm; rewrite Hc, ?app_nil_r;
  split; [eexists; rewrite <- ?app_assoc; reflexivity | split];
  [intros [=] | intros ? [=]].

Lemma main_run (w : World) (g : Globals) :
  let r := main w g in
  (exists later, main_calls w = service_calls (events r) ++ later)
  /\ (outcome r = Ret tt -> service_calls (events r) = main_calls w)
  /\ (forall c, outcome r <> SysExit c).
Proof.
  cbn zeta.
  unfold main, main_calls, read_doc, chunk_data, retrieve_answers,
    retrieve_query, environ_getitem, try_except, bind, call, print, sleep,
    emit, ret, raise, set_index, set_chain, get_index, get_chain.
  destruct (directory_load w DOCUMENTS_DIRECTORY) as [e|[|d docs]]; cbn.
  1,2: calls_norm; split; [exists []; reflexivity | split];
    [reflexivity | intros ? [=]].
  destruct (text_splitter_new w 800 50) as [e|[]]; cbn; [main_stopped|].
  destruct (split_documents w 800 50 (d :: docs)) as [e|chunks]; cbn;
    [main_stopped|].
  pose proof (setup_run w chunks g) as S. cbn zeta in S.
  destruct (setup_pinecone_index w chunks g) as [[ev g1] o]. cbn in S.
  destruct S as (-> & [rest Hrest] & Hret & Hexit).
  destruct o as [idx|e|c]; cbn.
  - destruct (Hret idx eq_refl) as [Hop Hc]. rewrite Hop. cbn.
    destruct (environ w "GOOGLE_API_KEY") as [key|]; cbn;
      [|main_stopped_after Hc].
    destruct (chat_model_new w _ key _) as [e|llm]; cbn;
      [main_stopped_after Hc|].
    destruct (create_stuff_documents_chain w llm) as [e|chain]; cbn;
      [main_stopped_after Hc|].
    destruct (index_query w idx _ _ _) as [e|hits]; cbn;
      [main_stopped_after Hc|].
    destruct (chain_invoke w chain hits _) as [e|answer]; cbn;
      [main_stopped_after Hc|].
    calls_norm. rewrite Hc.
    split; [exists []; now rewrite app_nil_r | split];
      [reflexivity | intros ? [=]].
  - calls_norm. rewrite Hrest, <- app_assoc.
    split; [eexists; reflexivity | split]; [intros [=] | intros ? [=]].
  - now destruct (Hexit c).
Qed.

(** ** The build: when it returns, and what it leaves behind when not *)

Section BuildOutcome.

Variable w : World.

Lemma upsert_loop_answers (index : Index) (records : list IndexRecord)
    (offsets : list nat) (g : Globals) :
  outcome (for_each offsets (upsert_batch w index records) g) = Ret tt ->
  forall i, In i offsets ->
    upsert_records w index "default"
      (py_slice records i (i + batch_size)) = inr tt.
Proof.
  induction offsets as [|a rest IH]; intros Ho i Hin; [destruct Hin|].
  cbn [for_each] in Ho.
  destruct (upsert_batch_run w index records a g) as [line E].
  destruct (upsert_records w index "default" _) as [e|[]] eqn:Ea.
  - rewrite (bind_raises _ _ _ _ _ _ E) in Ho. discriminate.
  - rewrite (bind_returns _ _ _ _ _ _ E) in Ho. cbn in Ho.
    destruct Hin as [<-|Hin]; [exact Ea | now apply IH].
Qed.

Lemma upsert_phase_answers (index : Index) (documents : list Document)
    (g : Globals) (idx : Index) :
  outcome
    ((for_each (py_range 0 (List.length (build_records documents))
                         batch_size)
               (upsert_batch w index (build_records documents)) ;;
      print ("Upserted " ++ str_of_nat (List.length documents)
             ++ " documents into index '" ++ index_name ++ "'.") ;;
      stats <- call (EvDescribeIndexStats index)
                    (describe_index_stats w index) ;;
      print ("Index stats: " ++ stats) ;;
      ret index) g)
  = Ret idx ->
  idx = index
  /\ (forall batch,
        In batch (upsert_batches (build_records documents)) ->
        upsert_records w index "default" batch = inr tt)
  /\ exists stats, describe_index_stats w index = inr stats.
Proof.
  unfold upsert_batches. set (offsets := py_range 0 _ batch_size).
  pose proof (upsert_loop_answers index (build_records documents) offsets g)
    as L.
  destruct (for_each offsets _ g) as [[ev g1] [[]|e|c]] eqn:E.
  - rewrite (bind_returns _ _ _ _ _ _ E). cbn.
    destruct (describe_index_stats w index) as [e|stats]; cbn;
      [discriminate|].
    intros [= <-]. split; [reflexivity | split; [|now exists stats]].
    intros batch Hin. apply in_map_iff in Hin.
    destruct Hin as (i & <- & Hin). now apply L.
  - rewrite (bind_raises _ _ _ _ _ _ E). discriminate.
  - unfold bind at 1. rewrite E. discriminate.
Qed.

Lemma setup_returns_inv (documents : list Document) (index : Index)
    (g : Globals) :
  outcome (setup_pinecone_index w documents g) = Ret index ->
  build_answers w documents index.
Proof.
  unfold setup_pinecone_index.
  match goal with
  | |- context [try_except ?b (fun e => print (?f1 ++ _) ;; print ?l2 ;; _) g]
    => destruct (try_except_report b (fun e => (f1 ++ exn_str e)%string) l2 g)
         as (_ & _ & _ & ->)
  end.
  unfold build_answers, environ_getitem.
  destruct (environ w "PINECONE_API_KEY") as [key|] eqn:Hkey;
    [|discriminate].
  cbn. destruct (pinecone_new w key) as [e|[]] eqn:Hpc; [discriminate|].
  cbn. destruct (list_index_names w) as [e|names] eqn:Hls; [discriminate|].
  cbn. destruct (py_in index_name names) eqn:Hin.
  - cbn. destruct (delete_index w _) as [e|[]] eqn:Hdel; [discriminate|].
    cbn. destruct (create_index_for_model w _ _ _ _ _) as [e|[]] eqn:Hcr;
      [discriminate|].
    cbn. destruct (open_index w _) as [e|idx] eqn:Hop; [discriminate|].
    cbn. pose proof (upsert_phase_answers idx documents g index) as T.
    match type of T with outcome ?t = _ -> _ =>
      destruct t as [[ev g1] o] end.
    cbn in T |- *. intros H. destruct (T H) as (-> & Hup & stats & Hst).
    exists key, names, stats. repeat split; auto.
  - cbn. destruct (create_index_for_model w _ _ _ _ _) as [e|[]] eqn:Hcr;
      [discriminate|].
    cbn. destruct (open_index w _) as [e|idx] eqn:Hop; [discriminate|].
    cbn. pose proof (upsert_phase_answers idx documents g index) as T.
    match type of T with outcome ?t = _ -> _ =>
      destruct t as [[ev g1] o] end.
    cbn in T |- *. intros H. destruct (T H) as (-> & Hup & stats & Hst).
    exists key, names, stats. repeat split; auto; congruence.
Qed.

End BuildOutcome.

(** ** Where the arguments of the calls come from *)

Lemma emits_only_bind_call {A B} (P : Event -> Prop) (e : Event)
    (answer : Exn + A) (k : A -> M B) :
  P e ->
  (forall a, answer = inr a -> emits_only P (k a)) ->
  emits_only P (bind (call e answer) k).
Proof.
  intros He Hk g. unfold bind, call. destruct answer as [x|a]; cbn.
  - now repeat constructor.
  - specialize (Hk a eq_refl g). destruct (k a g) as [[ev2 g2] r].
    cbn in *. now constructor.
Qed.

Lemma emits_only_bind_environ {B} (P : Event -> Prop) (w : World)
    (key : string) (k : string -> M B) :
  (forall v, environ w key = Some v -> emits_only P (k v)) ->
  emits_only P (bind (environ_getitem w key) k).
Proof.
  intros Hk g. unfold bind, environ_getitem.
  destruct (environ w key) as [v|]; cbn; [|constructor].
  specialize (Hk v eq_refl g). now destruct (k v g) as [[ev2 g2] r].
Qed.

Lemma emits_only_for_each_in {A} (P : Event -> Prop) (xs : list A)
    (body : A -> M unit) :
  (forall x, In x xs -> emits_only P (body x)) ->
  emits_only P (for_each xs body).
Proof.
  induction xs as [|x xs IH]; intros Hb; cbn [for_each].
  - apply emits_only_ret.
  - apply emits_only_bind; [apply Hb; now left | intros _].
    apply IH. intros y Hy. apply Hb. now right.
Qed.

(** A property of events holds of a whole build as soon as it holds of
    each call with the arguments the build can give it: the key of the
    environment, the delete only for a listed name, the handle that
    [open_index] returned, a batch of the loop. *)
Section BuildFlow.

Variable w : World.
Variable documents : list Document.
Variable P : Event -> Prop.

Hypothesis P_print : forall line, P (EvPrint line).
Hypothesis P_sleep : P (EvSleep 10).
Hypothesis P_pinecone :
  forall key, environ w "PINECONE_API_KEY" = Some key -> P (EvPinecone key).
Hypothesis P_list : P EvListIndexes.
Hypothesis P_delete :
  forall names,
    list_index_names w = inr names -> In index_name names ->
    P (EvDeleteIndex index_name).
Hypothesis P_create :
  P (EvCreateIndexForModel index_name "aws" "us-east-1"
       "llama-text-embed-v2" [("text", "chunk_text")]).
Hypothesis P_open : P (EvOpenIndex index_name).
Hypothesis P_upsert :
  forall index batch,
    open_index w index_name = inr index ->
    In batch (upsert_batches (build_records documents)) ->
    P (EvUpsertRecords index "default" batch).
Hypothesis P_stats :
  forall index,
    open_index w index_name = inr index -> P (EvDescribeIndexStats index).

Lemma setup_flow : emits_only P (setup_pinecone_index w documents).
Proof.
  unfold setup_pinecone_index.
  apply emits_only_try; [|intros e; emits_walk; auto].
  apply emits_only_bind_environ. intros key Hkey.
  apply emits_only_bind_call; [auto|]. intros _ _.
  apply emits_only_bind_call; [auto|]. intros names Hls.
  apply emits_only_bind.
  { destruct (py_in index_name names) eqn:Hin; emits_walk; auto.
    apply (P_delete names Hls). now apply py_in_In. }
  intros _. apply emits_only_bind; [now apply emits_only_print|]. intros _.
  apply emits_only_bind_call; [exact P_create|]. intros _ _.
  apply emits_only_bind; [now apply emits_only_sleep|]. intros _.
  apply emits_only_bind_call; [exact P_open|]. intros index Hop.
  cbn zeta. apply emits_only_bind.
  { apply emits_only_for_each_in. intros i Hi. unfold upsert_batch.
    emits_walk; [auto|].
    apply (P_upsert index _ Hop). unfold upsert_batches.
    now apply (in_map (fun i => py_slice _ i (i + batch_size))). }
  intros _. emits_walk; auto.
Qed.

End BuildFlow.

(** The same for a whole run of [main]: the splitter sees the loaded
    documents, the build sees the chunks, and what comes after the build
    runs only once every call of the build has answered, on the handle the
    build returned, the model made with the key of the environment, the
    chain made from that model and the hits the query returned. *)
Section MainFlow.

Variable w : World.
Variable P : Event -> Prop.

Hypothesis P_print : forall line, P (EvPrint line).
Hypothesis P_load : P (EvLoad DOCUMENTS_DIRECTORY).
Hypothesis P_splitter : P (EvTextSplitter 800 50).
Hypothesis P_split :
  forall docs,
    directory_load w DOCUMENTS_DIRECTORY = inr docs -> docs <> [] ->
    P (EvSplitDocuments docs).
Hypothesis P_build :
  forall docs chunks,
    directory_load w DOCUMENTS_DIRECTORY = inr docs -> docs <> [] ->
    split_documents w 800 50 docs = inr chunks ->
    emits_only P (setup_pinecone_index w chunks).
Hypothesis P_chat :
  forall docs chunks index key,
    built w docs chunks index ->
    environ w "GOOGLE_API_KEY" = Some key ->
    P (EvChatModel "gemini-2.0-flash" key "0.5").
Hypothesis P_chain :
  forall docs chunks index key llm,
    built w docs chunks index ->
    environ w "GOOGLE_API_KEY" = Some key ->
    chat_model_new w "gemini-2.0-flash" key "0.5" = inr llm ->
    P (EvCreateChain llm).
Hypothesis P_query :
  forall docs chunks index,
    built w docs chunks index ->
    P (EvQuery index "default" 2 QUERY).
Hypothesis P_invoke :
  forall docs chunks index key llm chain hits,
    built w docs chunks index ->
    environ w "GOOGLE_API_KEY" = Some key ->
    chat_model_new w "gemini-2.0-flash" key "0.5" = inr llm ->
    create_stuff_documents_chain w llm = inr chain ->
    index_query w index "default" 2 QUERY = inr hits ->
    P (EvChainInvoke chain hits QUERY).

Ltac flow_leaf :=
  cbn [events fst];
  repeat first
    [ apply Forall_nil
    | apply Forall_cons; [solve [eauto 7] |]
    | apply Forall_app; split
    | assumption ].

Lemma main_flow : emits_only P (main w).
Proof.
  intros g.
  unfold main, read_doc, chunk_data, retrieve_answers,
    retrieve_query, environ_getitem, try_except, bind, call, print, sleep,
    emit, ret, raise, set_index, set_chain, get_index, get_chain.
  destruct (directory_load w DOCUMENTS_DIRECTORY) as [e|[|d docs]] eqn:Hload;
    cbn; [flow_leaf | flow_leaf |].
  assert (Hne : d :: docs <> []) by discriminate.
  destruct (text_splitter_new w 800 50) as [e|[]] eqn:Hnew; cbn;
    [flow_leaf|].
  destruct (split_documents w 800 50 (d :: docs)) as [e|chunks] eqn:Hsplit;
    cbn; [flow_leaf|].
  pose proof (P_build _ _ eq_refl Hne Hsplit g) as Hev.
  pose proof (setup_run w chunks g) as S. cbn zeta in S.
  pose proof (setup_returns_inv w chunks) as Hinv.
  specialize (fun index => Hinv index g).
  destruct (setup_pinecone_index w chunks g) as [[ev g1] o]. cbn in S, Hev.
  destruct S as (-> & _ & Hret & _).
  destruct o as [idx|e|c]; cbn; [|flow_leaf..].
  specialize (Hinv idx eq_refl).
  assert (Hbuilt : built w (d :: docs) chunks idx) by (repeat split; auto).
  clear Hret Hinv.
  destruct (environ w "GOOGLE_API_KEY") as [key|] eqn:Hkey; cbn;
    [|flow_leaf].
  destruct (chat_model_new w _ key _) as [e|llm] eqn:Hllm; cbn;
    [flow_leaf|].
  destruct (create_stuff_documents_chain w llm) as [e|chain] eqn:Hchain;
    cbn; [flow_leaf|].
  destruct (index_query w idx _ _ _) as [e|hits] eqn:Hq; cbn; [flow_leaf|].
  destruct (chain_invoke w chain hits _) as [e|answer]; cbn; flow_leaf.
Qed.

End MainFlow.

(** * Further properties of the script *)



(** X2. The script ends in [SystemExit] exactly when a required variable
    is missing, and the code is then 1: nothing after the credentials check
    exits the process. *)
Theorem script_exit_code (w : World) (g : Globals) (c : Z) :
  outcome (script w g) = SysExit c <-> c = 1%Z /\ missing_vars w <> [].
Proof.
  unfold script. destruct (missing_vars w) as [|v vs] eqn:E.
  - cbn [is_empty negb]. rewrite bind_ret_tt. split.
    + intros H. now apply main_run in H.
    + intros [_ H]. contradiction.
  - cbn. split.
    + intros [= <-]. split; [reflexivity | discriminate].
    + now intros [-> _].
Qed.

Lemma script_exit_code_witness :
  outcome (script world_without_keys no_globals) = SysExit 1.
Proof.
  apply (script_exit_code world_without_keys no_globals 1).
  split; [reflexivity | vm_compute; discriminate].
Defined.

Ltac globals_leaf :=
  cbn [globals outcome fst snd g_index g_chain];
  split; [try (intros [=]) | split];
  first [ left; reflexivity | right; eauto 12 | idtac ].

(** X3. What [main] leaves in the globals [index] and [chain].  A run that
    returns either loaded nothing and left them as they were, or set
    [index] to the handle of the build and [chain] to the chain made in
    this run, whatever they held before.  In any run each of the two is
    untouched or holds that value. *)
Theorem main_globals (w : World) (g : Globals) :
  let r := main w g in
  (outcome r = Ret tt ->
   (answer_or [] (directory_load w DOCUMENTS_DIRECTORY) = []
    /\ globals r = g)
   \/ exists docs chunks index key llm chain,
        built w docs chunks index
        /\ environ w "GOOGLE_API_KEY" = Some key
        /\ chat_model_new w "gemini-2.0-flash" key "0.5" = inr llm
        /\ create_stuff_documents_chain w llm = inr chain
        /\ globals r = mkGlobals (Some index) (Some chain))
  /\ (g_index (globals r) = g_index g
      \/ exists docs chunks index,
           built w docs chunks index
           /\ g_index (globals r) = Some index)
  /\ (g_chain (globals r) = g_chain g
      \/ exists key llm chain,
           environ w "GOOGLE_API_KEY" = Some key
           /\ chat_model_new w "gemini-2.0-flash" key "0.5" = inr llm
           /\ create_stuff_documents_chain w llm = inr chain
           /\ g_chain (globals r) = Some chain).
Proof.
  cbn zeta.
  unfold main, read_doc, chunk_data, retrieve_answers,
    retrieve_query, environ_getitem, try_except, bind, call, print, sleep,
    emit, ret, raise, set_index, set_chain, get_index, get_chain.
  destruct (directory_load w DOCUMENTS_DIRECTORY) as [e|[|d docs]] eqn:Hload;
    cbn.
  1,2: split; [intros _; left; split; reflexivity
              | split; left; reflexivity].
  assert (Hne : d :: docs <> []) by discriminate.
  destruct (text_splitter_new w 800 50) as [e|[]] eqn:Hnew; cbn;
    [globals_leaf|].
  destruct (split_documents w 800 50 (d :: docs)) as [e|chunks] eqn:Hsplit;
    cbn; [globals_leaf|].
  pose proof (setup_run w chunks g) as S. cbn zeta in S.
  pose proof (setup_returns_inv w chunks) as Hinv.
  specialize (fun index => Hinv index g).
  destruct (setup_pinecone_index w chunks g) as [[ev g1] o]. cbn in S.
  destruct S as (-> & _ & _ & Hexit).
  destruct o as [idx|e|c]; cbn; [|globals_leaf|now destruct (Hexit c)].
  specialize (Hinv idx eq_refl).
  assert (Hbuilt : built w (d :: docs) chunks idx) by (repeat split; auto).
  clear Hinv Hexit.
  destruct (environ w "GOOGLE_API_KEY") as [key|] eqn:Hkey; cbn;
    [|globals_leaf].
  destruct (chat_model_new w _ key _) as [e|llm] eqn:Hllm; cbn;
    [globals_leaf|].
  destruct (create_stuff_documents_chain w llm) as [e|chain] eqn:Hchain;
    cbn; [globals_leaf|].
  destruct (index_query w idx _ _ _) as [e|hits] eqn:Hq; cbn;
    [globals_leaf|].
  destruct (chain_invoke w chain hits _) as [e|answer]; cbn;
    [globals_leaf|].
  split; [intros _; right; eauto 12 | split; right; eauto 12].
Qed.

(** Stale globals are overwritten by a complete run. *)
Lemma main_globals_witness :
  exists index chain,
    globals (main (sample_world sample_pages [])
               (mkGlobals (Some (mkIndex "stale")) None))
    = mkGlobals (Some index) (Some chain).
Proof.
  destruct (main_globals (sample_world sample_pages [])
              (mkGlobals (Some (mkIndex "stale")) None)) as [H _].
  destruct H as [[H _]|(docs & chunks & index & key & llm & chain & H)].
  - vm_compute. reflexivity.
  - vm_compute in H. discriminate.
  - exists index, chain. apply H.
Defined.

(** X4. In every run of [main], whatever the globals held before, each
    value handed to a call is the one an earlier call of the run returned:
    the splitter gets the loaded documents; every upsert, the statistics
    and the query address the handle [open_index] returned; the chain is
    made from the model made with the key of the environment; and the
    chain is given the hits the query returned with the question that was
    sent to the index. *)
Theorem main_data_flow (w : World) (g : Globals) :
  Forall (grounded w) (events (main w g)).
Proof.
  apply main_flow; cbn; try (intros; exact I).
  - auto.
  - intros docs chunks _ _ _. apply setup_flow; cbn; auto.
  - intros docs chunks index key llm _ Hkey Hllm. now exists key.
  - intros docs chunks index (_ & _ & _ & _ & B).
    destruct B as (key & names & stats & _ & _ & _ & _ & _ & Hop & _).
    now split.
  - intros docs chunks index key llm chain hits (_ & _ & _ & _ & B)
           Hkey Hllm Hchain Hq.
    destruct B as (pkey & names & stats & _ & _ & _ & _ & _ & Hop & _).
    split; [reflexivity|]. now exists key, llm, index.
Qed.

(** With a stale handle in the global [index], the run still queries the
    handle of its own build. *)
Lemma main_data_flow_witness :
  let r := main (sample_world sample_pages [])
             (mkGlobals (Some (mkIndex "stale")) None) in
  flat_map (fun e => match index_of e with
                     | Some i => [i]
                     | None => []
                     end) (events r)
  = [mkIndex "lanchain"; mkIndex "lanchain"; mkIndex "lanchain"]
  /\ Forall (grounded (sample_world sample_pages [])) (events r).
Proof.
  cbn zeta. split; [vm_compute; reflexivity | apply main_data_flow].
Defined.





(** X6. The answering stages wait for the build: a run of [main] makes the
    model, makes the chain, queries the index or calls the chain only if
    the loader gave documents, the splitter answered and every call of
    the build, each upsert included, answered.  A failing build is fatal
    for the run. *)
Theorem main_answers_after_build (w : World) (g : Globals) (e : Event) :
  In e (events (main w g)) ->
  is_answering_call e = true ->
  exists docs chunks index, built w docs chunks index.
Proof.
  intros Hin He.
  assert (H : Forall (fun e => is_answering_call e = true ->
                       exists docs chunks index, built w docs chunks index)
                     (events (main w g))).
  { apply main_flow; try discriminate; eauto.
    intros docs chunks _ _ _. apply setup_flow; discriminate. }
  rewrite Forall_forall in H. now apply (H e).
Qed.

(** The query of a complete run: the build before it has answered. *)
Lemma main_answers_after_build_witness :
  exists docs chunks index,
    built (sample_world sample_pages []) docs chunks index.
Proof.
  apply (main_answers_after_build (sample_world sample_pages []) no_globals
           (EvQuery (mkIndex "lanchain") "default" 2 QUERY)).
  - vm_compute. tauto.
  - reflexivity.
Defined.

Lemma try_except_report_events {A} (body : M A) (report : Exn -> string)
    (advice : string) (g : Globals) :
  let r := try_except body
             (fun e => print (report e) ;; print advice ;; raise e) g in
  match outcome (body g) with
  | Raise e =>
      r = (events (body g) ++ [EvPrint (report e); EvPrint advice],
           globals (body g), Raise e)
  | _ => r = body g
  end.
Proof.
  unfold try_except. now destruct (body g) as [[ev g1] [a|e|c]].
Qed.

(** X7. Every failure of the build is reported and passed on: when
    [setup_pinecone_index] raises, the last two lines it printed are the
    failure line with the text of the exception it raises and the advice
    line; it never exits the process and leaves the globals alone. *)
Theorem build_failure_report (w : World) (documents : list Document)
    (g : Globals) :
  let r := setup_pinecone_index w documents g in
  (forall e,
     outcome r = Raise e ->
     exists before,
       events r
       = before
         ++ [EvPrint ("Failed to initialize Pinecone or upsert data: "
                      ++ exn_str e);
             EvPrint "Please verify the API key and ensure the 'lanchain' index exists in the us-east-1 region."])
  /\ (forall c, outcome r <> SysExit c)
  /\ globals r = g.
Proof.
  cbn zeta. destruct (setup_run w documents g) as (Hg & _ & _ & Hexit).
  split; [|now split].
  unfold setup_pinecone_index.
  match goal with
  | |- context [try_except ?b (fun e => print (?f1 ++ _) ;; print ?l2 ;; _) g]
    => pose proof (try_except_report_events b
                     (fun e => (f1 ++ exn_str e)%string) l2 g) as T
  end.
  cbn zeta in T. intros e He.
  match type of T with match outcome ?b with _ => _ end =>
    destruct (outcome b) as [a|e'|c] eqn:Hb;
      [rewrite T, Hb in He; discriminate
      | rewrite T in He |- *; cbn in He; injection He as ->;
        eexists; reflexivity
      | rewrite T, Hb in He; discriminate]
  end.
Qed.

(** An index service that refuses the creation: both lines are printed
    last. *)
Lemma build_failure_report_witness :
  exists before,
    events (setup_pinecone_index world_create_fails sample_pages no_globals)
    = before
      ++ [EvPrint "Failed to initialize Pinecone or upsert data: quota exceeded";
          EvPrint "Please verify the API key and ensure the 'lanchain' index exists in the us-east-1 region."].
Proof.
  apply (build_failure_report world_create_fails sample_pages no_globals)
    with (e := Exception "quota exceeded").
  vm_compute. reflexivity.
Defined.

(** X8. The build returns a handle exactly when every call it makes
    answers: the key is set, the client, the index list, the delete of a
    listed index, the creation, the handle, every batch of the loop and
    the statistics.  The handle returned is the one [open_index] gave. *)
Theorem build_returns_iff (w : World) (documents : list Document)
    (g : Globals) (index : Index) :
  outcome (setup_pinecone_index w documents g) = Ret index
  <-> build_answers w documents index.
Proof.
  split; [apply setup_returns_inv | apply setup_returns].
Qed.

Lemma build_returns_iff_witness :
  build_answers (sample_world [] []) (sample_chunks 120) (mkIndex "lanchain").
Proof.
  apply (build_returns_iff (sample_world [] []) (sample_chunks 120)
           no_globals (mkIndex "lanchain")).
  vm_compute. reflexivity.
Defined.

(** X9. Without [PINECONE_API_KEY] in the environment the build makes no
    call at all: the [KeyError] of the lookup is reported like any other
    failure and raised again. *)
Theorem build_missing_key (w : World) (documents : list Document)
    (g : Globals) :
  environ w "PINECONE_API_KEY" = None ->
  setup_pinecone_index w documents g
  = ([EvPrint "Failed to initialize Pinecone or upsert data: 'PINECONE_API_KEY'";
      EvPrint "Please verify the API key and ensure the 'lanchain' index exists in the us-east-1 region."],
     g, Raise (KeyError "PINECONE_API_KEY")).
Proof.
  intros H. unfold setup_pinecone_index, environ_getitem, try_except, bind.
  rewrite H. reflexivity.
Qed.

Lemma build_missing_key_witness :
  service_calls
    (events (setup_pinecone_index world_without_keys sample_pages no_globals))
  = [].
Proof.
  rewrite (build_missing_key world_without_keys sample_pages no_globals
             eq_refl).
  reflexivity.
Defined.

(** X10. The reset has no way back: when the index is listed and its
    deletion answers but the creation raises, the build raises that
    exception with the old index already deleted, and it has opened no
    handle and written nothing. *)
Theorem build_no_rollback (w : World) (documents : list Document)
    (g : Globals) (key : string) (names : list string) (e : Exn) :
  environ w "PINECONE_API_KEY" = Some key ->
  pinecone_new w key = inr tt ->
  list_index_names w = inr names ->
  In index_name names ->
  delete_index w index_name = inr tt ->
  create_index_for_model w index_name "aws" "us-east-1"
    "llama-text-embed-v2" [("text", "chunk_text")] = inl e ->
  let r := setup_pinecone_index w documents g in
  outcome r = Raise e
  /\ service_calls (events r)
     = [EvPinecone key; EvListIndexes; EvDeleteIndex index_name; EvSleep 10;
        EvCreateIndexForModel index_name "aws" "us-east-1"
          "llama-text-embed-v2" [("text", "chunk_text")]].
Proof.
  intros Hkey Hpc Hls Hin Hdel Hcr. apply py_in_In in Hin. cbn zeta.
  unfold setup_pinecone_index, environ_getitem, try_except, bind, call,
    print, sleep, emit, ret, raise.
  rewrite Hkey. cbn. rewrite Hpc. cbn. rewrite Hls. cbn. rewrite Hin. cbn.
  rewrite Hdel. cbn. rewrite Hcr. cbn. split; reflexivity.
Qed.

Lemma build_no_rollback_witness :
  service_calls
    (events (setup_pinecone_index world_create_fails sample_pages no_globals))
  = [EvPinecone "p-key"; EvListIndexes; EvDeleteIndex index_name; EvSleep 10;
     EvCreateIndexForModel index_name "aws" "us-east-1"
       "llama-text-embed-v2" [("text", "chunk_text")]].
Proof.
  apply (build_no_rollback world_create_fails sample_pages no_globals
           "p-key" ["lanchain"] (Exception "quota exceeded"));
    try reflexivity.
  now left.
Defined.

Lemma NoDup_app_l {A} (l1 l2 : list A) : NoDup (l1 ++ l2) -> NoDup l1.
Proof.
  induction l1 as [|a l1 IH]; cbn; intros H; [constructor|].
  inversion H as [|? ? Hnin Hnd]; subst. constructor.
  - intros Hin. apply Hnin. apply in_or_app. now left.
  - now apply IH.
Qed.

(** X11. In any run of the build, complete or not, no two of the records
    written share an identifier, within a batch or across batches: no
    upsert of a build overwrites another. *)
Theorem upserts_never_collide (w : World) (documents : list Document)
    (g : Globals) :
  NoDup (map _id
           (List.concat
              (upserted_batches
                 (events (setup_pinecone_index w documents g))))).
Proof.
  destruct (setup_upserts w documents g) as [[later H] _].
  pose proof (build_records_ids_NoDup documents) as Hnd.
  rewrite <- (upsert_batches_concat (build_records documents)) in Hnd.
  rewrite H, concat_app, map_app in Hnd.
  now apply NoDup_app_l in Hnd.
Qed.

Lemma upserts_never_collide_witness :
  List.length
    (List.concat
       (upserted_batches
          (events (setup_pinecone_index (sample_world [] [])
                     (sample_chunks 120) no_globals)))) = 120
  /\ NoDup (map _id
              (List.concat
                 (upserted_batches
                    (events (setup_pinecone_index (sample_world [] [])
                               (sample_chunks 120) no_globals))))).
Proof.
  split; [vm_compute; reflexivity | apply upserts_never_collide].
Defined.

(** X12. A failing build is fatal for [main]: when the loader and the
    splitter answered and the build over the chunks raises, [main] raises
    the same exception, has made no call beyond those of the build, and
    leaves the globals [index] and [chain] as they were. *)
Theorem main_build_failure (w : World) (g : Globals)
    (docs chunks : list Document) (e : Exn) :
  directory_load w DOCUMENTS_DIRECTORY = inr docs ->
  docs <> [] ->
  text_splitter_new w 800 50 = inr tt ->
  split_documents w 800 50 docs = inr chunks ->
  outcome (setup_pinecone_index w chunks g) = Raise e ->
  let r := main w g in
  outcome r = Raise e
  /\ globals r = g
  /\ service_calls (events r)
     = [EvLoad DOCUMENTS_DIRECTORY; EvTextSplitter 800 50;
        EvSplitDocuments docs]
       ++ service_calls (events (setup_pinecone_index w chunks g)).
Proof.
  intros Hload Hne Hnew Hsplit Hfail. cbn zeta.
  destruct docs as [|d docs]; [contradiction|].
  unfold main, read_doc, chunk_data, try_except, bind, call, print, emit,
    ret.
  rewrite Hload. cbn. rewrite Hnew. cbn. rewrite Hsplit. cbn.
  destruct (setup_run w chunks g) as (Hg & _).
  destruct (setup_pinecone_index w chunks g) as [[ev g1] o].
  cbn in Hfail, Hg. subst o g1. cbn. calls_norm.
  split; [reflexivity | split; reflexivity].
Qed.

Lemma main_build_failure_witness :
  outcome (main world_create_fails no_globals)
  = Raise (Exception "quota exceeded").
Proof.
  apply (main_build_failure world_create_fails no_globals sample_pages
           sample_pages (Exception "quota exceeded"));
    try (vm_compute; reflexivity).
  discriminate.
Defined.

(** X13. [main] handles no failure of the answering stages: once the
    build, the model and the chain are there, the run ends as the query and
    the chain decide.  It raises what the query raises, else what the chain
    raises, and returns only if both answer. *)
Theorem main_answering_outcome (w : World) (g : Globals)
    (docs chunks : list Document) (index : Index) (key : string)
    (llm : ChatModel) (chain : Chain) :
  built w docs chunks index ->
  environ w "GOOGLE_API_KEY" = Some key ->
  chat_model_new w "gemini-2.0-flash" key "0.5" = inr llm ->
  create_stuff_documents_chain w llm = inr chain ->
  outcome (main w g)
  = match index_query w index "default" 2 QUERY with
    | inl e => Raise e
    | inr hits =>
        match chain_invoke w chain hits QUERY with
        | inl e => Raise e
        | inr _ => Ret tt
        end
    end.
Proof.
  intros (Hload & Hne & Hnew & Hsplit & Hbuild) Hkey Hllm Hchain.
  destruct docs as [|d docs]; [contradiction|].
  unfold main, read_doc, chunk_data, retrieve_answers, retrieve_query,
    environ_getitem, try_except, bind, call, print, emit, ret, set_index,
    set_chain, get_index, get_chain.
  rewrite Hload. cbn. rewrite Hnew. cbn. rewrite Hsplit. cbn.
  pose proof (setup_returns w chunks index g Hbuild) as Ho.
  destruct (setup_run w chunks g) as (Hg & _).
  destruct (setup_pinecone_index w chunks g) as [[ev g1] o].
  cbn in Ho, Hg. subst o g1. cbn.
  rewrite Hkey. cbn. rewrite Hllm. cbn. rewrite Hchain. cbn.
  destruct (index_query w index "default" 2 QUERY) as [e|hits]; cbn;
    [reflexivity|].
  now destruct (chain_invoke w chain hits QUERY).
Qed.

Lemma sample_world_built :
  built (sample_world sample_pages []) sample_pages sample_pages
    (mkIndex "lanchain").
Proof.
  repeat split; try discriminate.
  exists "p-key", [], "{}". repeat split; try discriminate.
Qed.

Lemma main_answering_outcome_witness :
  outcome (main (sample_world sample_pages []) no_globals) = Ret tt.
Proof.
  apply (main_answering_outcome (sample_world sample_pages []) no_globals
           sample_pages sample_pages (mkIndex "lanchain") "g-key"
           (mkChatModel "gemini-2.0-flash" "g-key" "0.5")
           (mkChain (mkChatModel "gemini-2.0-flash" "g-key" "0.5")));
    try reflexivity.
  apply sample_world_built.
Defined.

(** X14. [chunk_data] looks at its parameters only when there is something
    to split: with a chunk size and overlap that the splitter refuses, an
    empty document list still gives the empty list, with the notice and no
    call, while every non-empty list raises the splitter's exception. *)
Theorem chunk_data_empty_input (w : World) (size overlap : Z) (e : Exn)
    (g : Globals) :
  text_splitter_new w size overlap = inl e ->
  chunk_data w [] (Some size) (Some overlap) g
  = ([EvPrint "No documents to chunk."], g, Ret [])
  /\ (forall docs,
        docs <> [] ->
        chunk_data w docs (Some size) (Some overlap) g
        = ([EvTextSplitter size overlap], g, Raise e)).
Proof.
  intros H. split; [reflexivity|].
  intros [|d docs] Hne; [contradiction|].
  unfold chunk_data, bind, call. cbn. now rewrite H.
Qed.

Lemma chunk_data_empty_input_witness :
  outcome (chunk_data (sample_world [] []) [] (Some 5%Z) (Some 6%Z)
             no_globals) = Ret []
  /\ outcome (chunk_data (sample_world [] []) sample_pages (Some 5%Z)
                (Some 6%Z) no_globals)
     = Raise (Exception "Got a larger chunk overlap than chunk size").
Proof.
  destruct (chunk_data_empty_input (sample_world [] []) 5 6
              (Exception "Got a larger chunk overlap than chunk size")
              no_globals eq_refl) as [H1 H2].
  split.
  - now rewrite H1.
  - rewrite (H2 sample_pages); [reflexivity | discriminate].
Defined.

(** X15. [retrieve_answers] returns the answer of the chain, and does so
    exactly when both globals are set, the query on the global index
    answers and the chain, given those hits and the same question,
    answers.  With [index] unset it raises [NameError] before any call;
    with only [chain] unset it has already queried the index when it
    raises. *)
Theorem retrieve_answers_run (w : World) (query : string) (g : Globals) :
  let r := retrieve_answers w query g in
  (forall answer,
     outcome r = Ret answer <->
     exists index chain hits,
       g_index g = Some index
       /\ g_chain g = Some chain
       /\ index_query w index "default" 2 query = inr hits
       /\ chain_invoke w chain hits query = inr answer)
  /\ globals r = g
  /\ (g_index g = None -> r = ([], g, Raise (NameError "index")))
  /\ (forall index hits,
        g_index g = Some index ->
        g_chain g = None ->
        index_query w index "default" 2 query = inr hits ->
        r = ([EvQuery index "default" 2 query;
              EvPrint ("Retrieved documents: " ++ repr_hits hits)],
             g, Raise (NameError "chain"))).
Proof.
  cbn zeta.
  unfold retrieve_answers, retrieve_query, bind, call, print, emit, ret,
    get_index, get_chain.
  destruct (g_index g) as [index|] eqn:Hi; cbn.
  2:{ split; [|split; [reflexivity | split; [reflexivity | discriminate]]].
      intros answer. split; [discriminate|].
      intros (i & c & h & [=] & _). }
  destruct (index_query w index "default" 2 query) as [e|hits] eqn:Hq; cbn.
  { split; [|split; [reflexivity | split; [discriminate|]]].
    - intros answer. split; [discriminate|].
      intros (i & c & h & [= <-] & _ & Hq' & _). congruence.
    - intros i h [= <-] _ Hq'. congruence. }
  destruct (g_chain g) as [chain|] eqn:Hc; cbn.
  2:{ split; [|split; [reflexivity | split; [discriminate|]]].
      - intros answer. split; [discriminate|].
        intros (i & c & h & _ & [=] & _).
      - intros i h [= <-] _ Hq'. congruence. }
  destruct (chain_invoke w chain hits query) as [e|answer0] eqn:Ha; cbn.
  - split; [|split; [reflexivity | split; discriminate]].
    intros answer. split; [discriminate|].
    intros (i & c & h & [= <-] & [= <-] & Hq' & Ha').
    rewrite Hq in Hq'. injection Hq' as <-. congruence.
  - split; [|split; [reflexivity | split; discriminate]].
    intros answer. split.
    + intros [= <-]. now exists index, chain, hits.
    + intros (i & c & h & [= <-] & [= <-] & Hq' & Ha').
      rewrite Hq in Hq'. injection Hq' as <-. congruence.
Qed.

(** Called before [main] has set anything, [retrieve_answers] makes no
    call. *)
Lemma retrieve_answers_run_witness :
  retrieve_answers (sample_world sample_pages []) "q" no_globals
  = ([], no_globals, Raise (NameError "index")).
Proof.
  apply (retrieve_answers_run (sample_world sample_pages []) "q" no_globals).
  reflexivity.
Defined.

Section BuildFailure.

Variable w : World.

Lemma upsert_phase_raises (index : Index) (documents : list Document)
    (g : Globals) (e : Exn) :
  outcome
    ((for_each (py_range 0 (List.length (build_records documents))
                         batch_size)
               (upsert_batch w index (build_records documents)) ;;
      print ("Upserted " ++ str_of_nat (List.length documents)
             ++ " documents into index '" ++ index_name ++ "'.") ;;
      stats <- call (EvDescribeIndexStats index)
                    (describe_index_stats w index) ;;
      print ("Index stats: " ++ stats) ;;
      ret index) g)
  = Raise e ->
  (exists batch,
     In batch (upsert_batches (build_records documents))
     /\ upsert_records w index "default" batch = inl e)
  \/ describe_index_stats w index = inl e.
Proof.
  unfold upsert_batches. set (offsets := py_range 0 _ batch_size).
  pose proof (upsert_loop_run w index (build_records documents) offsets g)
    as L.
  cbn zeta in L.
  destruct (for_each offsets _ g) as [[ev g1] o] eqn:E. cbn in L.
  destruct L as [-> [[-> Hc]|(e' & k & -> & Hk & Ha & Hc)]].
  - rewrite (bind_returns _ _ _ _ _ _ E). cbn.
    destruct (describe_index_stats w index) as [e'|stats]; cbn;
      [|discriminate].
    intros [= ->]. now right.
  - rewrite (bind_raises _ _ _ _ _ _ E). cbn. intros [= ->]. left.
    eexists. split; [|exact Ha].
    apply (in_map (fun i => py_slice _ i (i + batch_size))), nth_In, Hk.
Qed.

End BuildFailure.

(** X16. The build raises nothing of its own: the exception that
    [setup_pinecone_index] raises is the [KeyError] of a missing
    [PINECONE_API_KEY], or the exception that one of its calls raised, the
    client, the index list, the delete of a listed index, the creation,
    the handle, the upsert of one of the batches or the statistics. *)
Theorem build_failure_cause (w : World) (documents : list Document)
    (g : Globals) (e : Exn) :
  outcome (setup_pinecone_index w documents g) = Raise e ->
  (environ w "PINECONE_API_KEY" = None /\ e = KeyError "PINECONE_API_KEY")
  \/ (exists key,
        environ w "PINECONE_API_KEY" = Some key
        /\ pinecone_new w key = inl e)
  \/ list_index_names w = inl e
  \/ (exists names,
        list_index_names w = inr names
        /\ In index_name names
        /\ delete_index w index_name = inl e)
  \/ create_index_for_model w index_name "aws" "us-east-1"
       "llama-text-embed-v2" [("text", "chunk_text")] = inl e
  \/ open_index w index_name = inl e
  \/ (exists index batch,
        open_index w index_name = inr index
        /\ In batch (upsert_batches (build_records documents))
        /\ upsert_records w index "default" batch = inl e)
  \/ (exists index,
        open_index w index_name = inr index
        /\ describe_index_stats w index = inl e).
Proof.
  unfold setup_pinecone_index.
  match goal with
  | |- context [try_except ?b (fun e => print (?f1 ++ _) ;; print ?l2 ;; _) g]
    => destruct (try_except_report b (fun e => (f1 ++ exn_str e)%string) l2 g)
         as (_ & _ & _ & ->)
  end.
  unfold environ_getitem.
  destruct (environ w "PINECONE_API_KEY") as [key|] eqn:Hkey; cbn.
  2:{ intros [= <-]. left. now split. }
  destruct (pinecone_new w key) as [e0|[]] eqn:Hpc; cbn.
  { intros [= ->]. right. left. now exists key. }
  destruct (list_index_names w) as [e0|names] eqn:Hls; cbn.
  { intros [= ->]. tauto. }
  destruct (py_in index_name names) eqn:Hin; cbn.
  - apply py_in_In in Hin.
    destruct (delete_index w _) as [e0|[]] eqn:Hdel; cbn.
    { intros [= ->]. do 3 right. left. now exists names. }
    destruct (create_index_for_model w _ _ _ _ _) as [e0|[]] eqn:Hcr; cbn.
    { intros [= ->]. tauto. }
    destruct (open_index w _) as [e0|idx] eqn:Hop; cbn.
    { intros [= ->]. tauto. }
    pose proof (upsert_phase_raises w idx documents g e) as T.
    match type of T with outcome ?t = _ -> _ =>
      destruct t as [[ev g1] o] end.
    cbn in T |- *. intros H.
    destruct (T H) as [(batch & Hb & Hu)|Hst].
    + do 6 right. left. now exists idx, batch.
    + do 7 right. now exists idx.
  - destruct (create_index_for_model w _ _ _ _ _) as [e0|[]] eqn:Hcr; cbn.
    { intros [= ->]. tauto. }
    destruct (open_index w _) as [e0|idx] eqn:Hop; cbn.
    { intros [= ->]. tauto. }
    pose proof (upsert_phase_raises w idx documents g e) as T.
    match type of T with outcome ?t = _ -> _ =>
      destruct t as [[ev g1] o] end.
    cbn in T |- *. intros H.
    destruct (T H) as [(batch & Hb & Hu)|Hst].
    + do 6 right. left. now exists idx, batch.
    + do 7 right. now exists idx.
Qed.

(** The refusal of the creation is what the build raises. *)
Lemma build_failure_cause_witness :
  (environ world_create_fails "PINECONE_API_KEY" = None
   /\ Exception "quota exceeded" = KeyError "PINECONE_API_KEY")
  \/ (exists key,
        environ world_create_fails "PINECONE_API_KEY" = Some key
        /\ pinecone_new world_create_fails key
           = inl (Exception "quota exceeded"))
  \/ list_index_names world_create_fails = inl (Exception "quota exceeded")
  \/ (exists names,
        list_index_names world_create_fails = inr names
        /\ In index_name names
        /\ delete_index world_create_fails index_name
           = inl (Exception "quota exceeded"))
  \/ create_index_for_model world_create_fails index_name "aws" "us-east-1"
       "llama-text-embed-v2" [("text", "chunk_text")]
     = inl (Exception "quota exceeded")
  \/ open_index world_create_fails index_name
     = inl (Exception "quota exceeded")
  \/ (exists index batch,
        open_index world_create_fails index_name = inr index
        /\ In batch (upsert_batches (build_records sample_pages))
        /\ upsert_records world_create_fails index "default" batch
           = inl (Exception "quota exceeded"))
  \/ (exists index,
        open_index world_create_fails index_name = inr index
        /\ describe_index_stats world_create_fails index
           = inl (Exception "quota exceeded")).
Proof.
  apply (build_failure_cause world_create_fails sample_pages no_globals).
  vm_compute. reflexivity.
Defined.

(** ** The announcements of the upsert loop *)

Arguments upsert_log : simpl never.

Lemma bind_exits {A B} (m : M A) (k : A -> M B) g ev g1 c :
  m g = (ev, g1, SysExit c) -> bind m k g = (ev, g1, SysExit c).
Proof. intros H. unfold bind. now rewrite H. Qed.

Lemma upsert_log_app (a b : list Event) :
  upsert_log (a ++ b) = upsert_log a ++ upsert_log b.
Proof. apply flat_map_app. Qed.

Lemma prefix_append (s t : string) : String.prefix s (s ++ t) = true.
Proof.
  induction s as [|c s IH].
  - now destruct t.
  - cbn [String.append String.prefix]. unfold String.append. cbn.
    destruct (ascii_dec c c) as [_|Hne]; [exact IH | now destruct Hne].
Qed.

Lemma batch_line_prefix (number size : nat) :
  String.prefix "Upserting batch " (batch_line number size) = true.
Proof. apply prefix_append. Qed.

Lemma batch_line_logged (number size : nat) (evs : list Event) :
  upsert_log (EvPrint (batch_line number size) :: evs)
  = inl (batch_line number size) :: upsert_log evs.
Proof.
  unfold upsert_log. cbn [flat_map]. now rewrite batch_line_prefix.
Qed.

Lemma range_fuel_seq (step fuel start stop : nat) :
  range_fuel fuel start stop step
  = map (fun n => start + n * step)
        (seq 0 (List.length (range_fuel fuel start stop step))).
Proof.
  revert start. induction fuel as [|fuel IH]; intros start; [reflexivity|].
  cbn [range_fuel]. destruct (Nat.ltb start stop); [|reflexivity].
  cbn [List.length seq map]. f_equal; [lia|].
  rewrite <- seq_shift, map_map. rewrite IH at 1.
  apply map_ext. intros n. lia.
Qed.

Lemma enumerate_from_map_seq {A} (f : nat -> A) (start len : nat) :
  enumerate_from start (map f (seq start len))
  = map (fun n => (n, f n)) (seq start len).
Proof.
  revert start. induction len as [|len IH]; intros start; [reflexivity|].
  cbn. now rewrite IH.
Qed.

Section Announcements.

Variable w : World.

Lemma upsert_batch_events (index : Index) (records : list IndexRecord)
    (i : nat) (g : Globals) :
  let batch := py_slice records i (i + batch_size) in
  upsert_batch w index records i g
  = ([EvPrint (batch_line (i / batch_size + 1) (List.length batch));
      EvUpsertRecords index "default" batch],
     g,
     match upsert_records w index "default" batch with
     | inl e => Raise e
     | inr _ => Ret tt
     end).
Proof.
  cbn zeta. unfold upsert_batch, batch_line. cbn.
  destruct (upsert_records w index "default" _) as [e|[]]; reflexivity.
Qed.

(** The events of the loop: for some initial part of the offsets, the
    announcement and the upsert of each, in turn. *)
Lemma upsert_loop_events (index : Index) (records : list IndexRecord)
    (offsets : list nat) (g : Globals) :
  exists k,
    events (for_each offsets (upsert_batch w index records) g)
    = flat_map
        (fun i =>
           [EvPrint (batch_line (i / batch_size + 1)
                       (List.length (py_slice records i (i + batch_size))));
            EvUpsertRecords index "default"
              (py_slice records i (i + batch_size))])
        (firstn k offsets).
Proof.
  induction offsets as [|i rest IH]; [now exists 0|].
  cbn [for_each]. pose proof (upsert_batch_events index records i g) as E.
  cbn zeta in E.
  destruct (upsert_records w index "default" _) as [e|u].
  - rewrite (bind_raises _ _ _ _ _ _ E). now exists 1.
  - rewrite (bind_returns _ _ _ _ _ _ E). destruct IH as [k IH].
    exists (S k). cbn [events fst]. now rewrite IH.
Qed.

Lemma upsert_log_cons_quiet (e : Event) (l : list Event) :
  upsert_log [e] = [] -> upsert_log (e :: l) = upsert_log l.
Proof.
  intros H. change (e :: l) with ([e] ++ l). now rewrite upsert_log_app, H.
Qed.

Lemma upsert_log_quiet (l : list Event) :
  Forall (fun e => upsert_log [e] = []) l -> upsert_log l = [].
Proof.
  induction 1 as [|e l He _ IH]; [reflexivity|].
  now rewrite upsert_log_cons_quiet.
Qed.

Lemma upsert_log_loop (index : Index) (records : list IndexRecord)
    (part : list nat) :
  upsert_log
    (flat_map
       (fun i =>
          [EvPrint (batch_line (i / batch_size + 1)
                      (List.length (py_slice records i (i + batch_size))));
           EvUpsertRecords index "default"
             (py_slice records i (i + batch_size))])
       part)
  = flat_map (announced_pair records) part
  /\ upserted_batches
       (flat_map
          (fun i =>
             [EvPrint (batch_line (i / batch_size + 1)
                         (List.length (py_slice records i (i + batch_size))));
              EvUpsertRecords index "default"
                (py_slice records i (i + batch_size))])
          part)
     = map (fun i => py_slice records i (i + batch_size)) part.
Proof.
  induction part as [|i part [IH1 IH2]]; [now split|]. split.
  - cbn [flat_map app]. rewrite batch_line_logged.
    unfold announced_pair at 1. cbn [app]. f_equal.
    unfold upsert_log in IH1 |- *. cbn [flat_map app]. f_equal. exact IH1.
  - cbn [flat_map map app]. unfold upserted_batches in IH2 |- *.
    cbn [flat_map app]. f_equal. exact IH2.
Qed.

Lemma upsert_phase_log (index : Index) (documents : list Document)
    (g : Globals) :
  let records := build_records documents in
  let r :=
    (for_each (py_range 0 (List.length records) batch_size)
              (upsert_batch w index records) ;;
     print ("Upserted " ++ str_of_nat (List.length documents)
            ++ " documents into index '" ++ index_name ++ "'.") ;;
     stats <- call (EvDescribeIndexStats index)
                   (describe_index_stats w index) ;;
     print ("Index stats: " ++ stats) ;;
     ret index) g in
  exists k,
    let part := firstn k (py_range 0 (List.length records) batch_size) in
    upsert_log (events r) = flat_map (announced_pair records) part
    /\ upserted_batches (events r)
       = map (fun i => py_slice records i (i + batch_size)) part.
Proof.
  cbn zeta. set (offsets := py_range 0 _ batch_size).
  destruct (upsert_loop_events index (build_records documents) offsets g)
    as [k Hk].
  destruct (upsert_log_loop index (build_records documents)
              (firstn k offsets)) as [Hl Hu].
  rewrite <- Hk in Hl, Hu. exists k.
  destruct (for_each offsets _ g) as [[ev g1] o] eqn:E.
  cbn [events fst] in Hl, Hu. destruct o as [[]|e|c].
  - rewrite (bind_returns _ _ _ _ _ _ E). cbn [events fst].
    rewrite upsert_log_app, upserted_batches_app, Hl, Hu.
    unfold bind, call, print, emit, ret.
    destruct (describe_index_stats w index); cbn [events fst app];
      (rewrite upsert_log_quiet; [|repeat (constructor; [reflexivity|]);
                                   constructor]);
      (split; [apply app_nil_r|]);
      unfold upserted_batches; cbn [flat_map app]; apply app_nil_r.
  - rewrite (bind_raises _ _ _ _ _ _ E). cbn [events fst].
    split; assumption.
  - rewrite (bind_exits _ _ _ _ _ _ E). cbn [events fst].
    split; assumption.
Qed.

Ltac log_stopped :=
  exists 0; cbn; split; reflexivity.

Ltac log_finish idx documents g :=
  cbn; pose proof (upsert_phase_log idx documents g) as T;
  cbn zeta in T;
  match type of T with exists k, upsert_log (events ?t) = _ /\ _ =>
    destruct t as [[ev g1] o] end;
  cbn [events fst] in T |- *; destruct T as [k [Hl Hu]]; exists k;
  split;
  [ repeat (rewrite upsert_log_cons_quiet by reflexivity); exact Hl
  | unfold upserted_batches in Hu |- *; cbn [flat_map app]; exact Hu ].

(** The announcements and upserts of a run of the build are those of an
    initial part of the loop's offsets. *)
Lemma setup_upsert_log (documents : list Document) (g : Globals) :
  let records := build_records documents in
  let r := setup_pinecone_index w documents g in
  exists k,
    let part := firstn k (py_range 0 (List.length records) batch_size) in
    upsert_log (events r) = flat_map (announced_pair records) part
    /\ upserted_batches (events r)
       = map (fun i => py_slice records i (i + batch_size)) part.
Proof.
  cbn zeta.
  assert (H : forall body : M Index,
            let r := try_except body
                       (fun e =>
                          print ("Failed to initialize Pinecone or upsert data: "
                                 ++ exn_str e) ;;
                          print "Please verify the API key and ensure the 'lanchain' index exists in the us-east-1 region." ;;
                          raise e) g in
            upsert_log (events r) = upsert_log (events (body g))
            /\ upserted_batches (events r)
               = upserted_batches (events (body g))).
  { intros body. unfold try_except.
    destruct (body g) as [[ev g1] [a|e|c]]; cbn; try (now split).
    rewrite upsert_log_app, upserted_batches_app. cbn.
    now rewrite !app_nil_r. }
  unfold setup_pinecone_index. cbn zeta in H.
  match goal with |- context [try_except ?b _ g] =>
    destruct (H b) as [-> ->] end.
  clear H. unfold environ_getitem.
  destruct (environ w "PINECONE_API_KEY") as [key|]; [|log_stopped].
  cbn. destruct (pinecone_new w key) as [e|[]]; [log_stopped|].
  cbn. destruct (list_index_names w) as [e|names]; [log_stopped|].
  cbn. destruct (py_in index_name names).
  - cbn. destruct (delete_index w _) as [e|[]]; [log_stopped|].
    cbn. destruct (create_index_for_model w _ _ _ _ _) as [e|[]];
      [log_stopped|].
    cbn. destruct (open_index w _) as [e|idx]; [log_stopped|].
    log_finish idx documents g.
  - cbn. destruct (create_index_for_model w _ _ _ _ _) as [e|[]];
      [log_stopped|].
    cbn. destruct (open_index w _) as [e|idx]; [log_stopped|].
    log_finish idx documents g.
Qed.

End Announcements.

Lemma firstn_of_seq (k start len : nat) :
  firstn k (seq start len) = seq start (Nat.min k len).
Proof.
  revert start len. induction k as [|k IH]; intros start [|len];
    try reflexivity.
  cbn. now rewrite IH.
Qed.

Lemma flat_map_of_map {A B C} (f : A -> B) (h : B -> list C) (l : list A) :
  flat_map h (map f l) = flat_map (fun x => h (f x)) l.
Proof.
  induction l as [|a l IH]; [reflexivity|]. cbn. now rewrite IH.
Qed.

(** X17. The announcements of the upsert loop match the writes: in any
    run of the build, complete or stopped by a failure, the lines starting
    with [Upserting batch] and the upserts alternate, each batch preceded
    by the line that gives its position among the batches, counted from 1,
    and its actual number of records.  After a failed upsert the last such
    line names the batch that failed. *)
Theorem batch_announcements (w : World) (documents : list Document)
    (g : Globals) :
  let r := setup_pinecone_index w documents g in
  upsert_log (events r)
  = flat_map
      (fun p : nat * list IndexRecord =>
         [inl (batch_line (fst p + 1) (List.length (snd p))); inr (snd p)])
      (enumerate (upserted_batches (events r))).
Proof.
  cbn zeta. destruct (setup_upsert_log w documents g) as [k [Hl Hu]].
  cbn zeta in Hl, Hu. rewrite Hl, Hu. clear Hl Hu.
  unfold py_range. rewrite range_fuel_seq, firstn_map, firstn_of_seq.
  set (m := Nat.min k _). rewrite map_map. unfold enumerate.
  rewrite enumerate_from_map_seq, !flat_map_of_map.
  apply flat_map_ext. intros n. unfold announced_pair. cbn [fst snd].
  unfold batch_size. cbn [Nat.add]. now rewrite Nat.div_mul.
Qed.

(** Batches of 50, 50 and 20 records are announced as batch 1, 2 and 3
    with these sizes. *)
Lemma batch_announcements_witness :
  let r := setup_pinecone_index (sample_world [] []) (sample_chunks 120)
             no_globals in
  flat_map (fun x => match x with inl line => [line] | inr _ => [] end)
           (upsert_log (events r))
  = ["Upserting batch 1 with 50 records";
     "Upserting batch 2 with 50 records";
     "Upserting batch 3 with 20 records"]
  /\ upsert_log (events r)
     = flat_map
         (fun p : nat * list IndexRecord =>
            [inl (batch_line (fst p + 1) (List.length (snd p)));
             inr (snd p)])
         (enumerate (upserted_batches (events r))).
Proof.
  cbn zeta. split; [vm_compute; reflexivity | apply batch_announcements].
Defined.
